(** * Proxy-aware resilient request layer (proxy module of the userscript)

    A shallow embedding of the proxy module: endpoint parsing, the pool
    store and its administration, the health tracker, the weighted
    selector, the retrying executor, reporting and probing, followed by
    the properties stated about them.

    Conventions of the embedding.
    - JavaScript strings are [string]; [null] credentials are [None].
    - Counters and millisecond timestamps are [Z], integers of a size
      that doubles hold exactly; the per-process 405 streak and the
      attempt counter, which only ever count up from zero, are [nat].
    - A port is the double [parseInt] returns: the digits' value rounded
      to the nearest double, printed by [String] as the shortest decimal
      that reads back, in exponent notation from 1e21 on.  The success
      rate of the summary is computed with the roundings of its division
      and its multiplication.
    - Selection weights are exact rationals ([Q]) where the script uses
      IEEE doubles; in the script rounding can let the subtraction loop
      of the selector run through all candidates, so what is stated of
      the selector covers both ways the loop can end.
    - Calls share the module state: a call is run with the starts and
      handler runs of other calls between its own reports.
    - [Date.now()] and [Math.random()] are inputs: every function that
      reads them takes the value read as an argument.
    - [localStorage] is a record with one typed slot per key the module
      uses; reads and writes of the slots do not fail. *)

From Stdlib Require Import ZArith QArith Qminmax Qround Qabs Lia Lqa.
From Stdlib Require Import Ascii String DecimalString.
From stdpp Require Import gmap strings list.

Local Open Scope string_scope.
Local Open Scope Z_scope.

(** ** JavaScript primitives used by the module *)

Module Js.

(** Outcome of a call that may throw. *)
Inductive completion (A : Type) : Type :=
| Normal (a : A)
| Throw (message : string).
Arguments Normal {A} a.
Arguments Throw {A} message.

Definition bind {A B} (c : completion A) (k : A -> completion B) : completion B :=
  match c with
  | Normal a => k a
  | Throw m => Throw m
  end.

(** [Array.prototype.map] with a callback that may throw: the first
    exception aborts the whole map. *)
Fixpoint mapM {A B} (f : A -> completion B) (l : list A) : completion (list B) :=
  match l with
  | [] => Normal []
  | x :: xs => bind (f x) (fun y => bind (mapM f xs) (fun ys => Normal (y :: ys)))
  end.

(** [s.split(sep)] for a one-character separator. *)
Fixpoint split (sep : ascii) (s : string) : list string :=
  match s with
  | EmptyString => [EmptyString]
  | String c rest =>
      if Ascii.eqb c sep then EmptyString :: split sep rest
      else match split sep rest with
           | p :: ps => String c p :: ps
           | [] => [String c EmptyString]
           end
  end.

(** Truthiness of a value that is either [null] or a string. *)
Definition truthy (v : option string) : bool :=
  match v with
  | Some s => negb (String.eqb s "")
  | None => false
  end.

(** Numbers produced by [parseInt]: [NaN], an infinity, or an
    integer-valued double, kept as the integer it is equal to. *)
Inductive number : Type :=
| NaN
| Infinity (negative : bool)
| Num (z : Z).

(** The double nearest to the natural number [n], ties to the even
    significand; [None] when [n] rounds beyond the largest double. *)
Definition nearestDouble (n : Z) : option Z :=
  let bits := Z.log2 n + 1 in
  if bits <=? 53 then Some n
  else
    let sh := bits - 53 in
    let q := Z.shiftr n sh in
    let r := n - Z.shiftl q sh in
    let half := Z.shiftl 1 (sh - 1) in
    let q' := if (half <? r) || ((r =? half) && Z.odd q) then q + 1 else q in
    let v := Z.shiftl q' sh in
    if Z.shiftl 1 1024 <=? v then None else Some v.

(** The number [parseInt] returns for the digits' value [n] and [sign]. *)
Definition toNumber (sign n : Z) : number :=
  match nearestDouble n with
  | Some v => Num (sign * v)
  | None => Infinity (sign <? 0)
  end.

Definition roundsTo (c v : Z) : bool :=
  match nearestDouble c with
  | Some v' => v' =? v
  | None => false
  end.

(** The integer [s * 10^(n-k)] of Number::toString for the double [v]
    of [d] decimal digits: the fewest digits [k] that still round to [v],
    nearest to [v] among those, the even [s] on a tie. *)
Fixpoint shortestDecimal (fuel : nat) (k d v : Z) : Z :=
  match fuel with
  | O => v
  | S fuel' =>
      let g := 10 ^ (d - k) in
      let lo := (v / g) * g in
      let hi := lo + g in
      match roundsTo lo v, roundsTo hi v with
      | true, true =>
          if v - lo <? hi - v then lo
          else if hi - v <? v - lo then hi
          else if Z.even (v / g) then lo else hi
      | true, false => lo
      | false, true => hi
      | false, false => shortestDecimal fuel' (k + 1) d v
      end
  end.

Definition decimalDigits (n : Z) : string := NilZero.string_of_uint (N.to_uint (Z.to_N n)).

Fixpoint dropTrailingZeros (s : string) : string :=
  match s with
  | EmptyString => EmptyString
  | String c rest =>
      match dropTrailingZeros rest with
      | EmptyString => if Ascii.eqb c "0" then EmptyString else String c EmptyString
      | rest' => String c rest'
      end
  end.

(** [String(v)] for a non-negative integer-valued double [v]: plain
    digits up to 21 of them, exponent notation beyond. *)
Definition magnitudeToString (v : Z) : string :=
  let d := Z.of_nat (String.length (decimalDigits v)) in
  let digits := decimalDigits (shortestDecimal (Z.to_nat d) 1 d v) in
  let n := Z.of_nat (String.length digits) in
  if n <=? 21 then digits
  else
    match dropTrailingZeros digits with
    | String c EmptyString => String c ("e+" ++ decimalDigits (n - 1))
    | String c rest => String c ("." ++ rest ++ "e+" ++ decimalDigits (n - 1))
    | EmptyString => digits
    end.

Definition isWhiteSpace (c : ascii) : bool :=
  let n := nat_of_ascii c in
  ((n =? 32) || ((9 <=? n) && (n <=? 13)))%nat.

Fixpoint trimStart (s : string) : string :=
  match s with
  | String c rest => if isWhiteSpace c then trimStart rest else s
  | EmptyString => EmptyString
  end.

Definition digitValue (c : ascii) : option Z :=
  let n := Z.of_nat (nat_of_ascii c) in
  if (48 <=? n) && (n <=? 57) then Some (n - 48)
  else if (97 <=? n) && (n <=? 122) then Some (n - 87)
  else if (65 <=? n) && (n <=? 90) then Some (n - 55)
  else None.

(** Longest prefix of digits valid in [radix]; [acc] is [None] until a
    digit has been read. *)
Fixpoint readDigits (radix : Z) (s : string) (acc : option Z) : option Z :=
  match s with
  | String c rest =>
      match digitValue c with
      | Some d =>
          if d <? radix
          then readDigits radix rest (Some (default 0 acc * radix + d))
          else acc
      | None => acc
      end
  | EmptyString => acc
  end.

(** [parseInt(s)] without a radix argument. *)
Definition parseInt (s : string) : number :=
  let s1 := trimStart s in
  let '(sign, s2) :=
    match s1 with
    | String "-" r => (-1, r)
    | String "+" r => (1, r)
    | _ => (1, s1)
    end in
  let '(radix, s3) :=
    match s2 with
    | String "0" (String "x" r) => (16, r)
    | String "0" (String "X" r) => (16, r)
    | _ => (10, s2)
    end in
  match readDigits radix s3 None with
  | Some n => toNumber sign n
  | None => NaN
  end.

(** [String(n)], as a template literal renders a number. *)
Definition numberToString (n : number) : string :=
  match n with
  | NaN => "NaN"
  | Infinity negative => if negative then "-Infinity" else "Infinity"
  | Num z => if z <? 0 then "-" ++ magnitudeToString (- z) else magnitudeToString z
  end.

(** [Math.round(a / b)] for integers [a], [b] with [b <> 0]: the
    quotient rounded to the nearest integer, halves towards +infinity. *)
Definition roundDiv (a b : Z) : Z := (2 * a + b) / (2 * b).

(** Two to the power [e], for any integer [e]. *)
Definition pow2 (e : Z) : Q :=
  if 0 <=? e then inject_Z (2 ^ e) else (1 / inject_Z (2 ^ (- e)))%Q.

(** The double nearest to the rational [x], ties to the even significand,
    for [x] within the range of the normal doubles: the value of an
    arithmetic operation whose exact result is [x]. *)
Definition roundDouble (x : Q) : Q :=
  let a := Qabs x in
  if Qeq_bool a 0 then 0%Q
  else
    let e0 := Z.log2 (Qnum a) - Z.log2 (Zpos (Qden a)) in
    let e := if Qle_bool (pow2 e0) a then e0 else e0 - 1 in
    let ulp := pow2 (e - 52) in
    let m := (a / ulp)%Q in
    let q := Qfloor m in
    let r := (m - inject_Z q)%Q in
    let q' := if Qle_bool r (1 # 2)
              then if Qeq_bool r (1 # 2) && Z.odd q then q + 1 else q
              else q + 1 in
    let v := Qred (inject_Z q' * ulp)%Q in
    if Qle_bool 0 x then v else (- v)%Q.

(** [Math.round(x)]: the nearest integer, halves towards +infinity. *)
Definition mathRound (x : Q) : Z := Qfloor (x + (1 # 2))%Q.

End Js.

Import Js.

(** ** Endpoint model *)

Record Proxy : Type := mkProxy {
  host : string;
  port : number;
  username : option string;
  password : option string;
  proxy : string  (* canonical key "host:port", built from the raw fields *)
}.

Definition invalidFormat (proxyString : string) : string :=
  "Invalid proxy format: " ++ proxyString.

Definition parseProxy (proxyString : string) : completion Proxy :=
  match split ":" proxyString with
  | [p0; p1] =>
      Normal {| host := p0; port := parseInt p1;
                username := None; password := None;
                proxy := p0 ++ ":" ++ p1 |}
  | [p0; p1; p2; p3] =>
      Normal {| host := p0; port := parseInt p1;
                username := Some p2; password := Some p3;
                proxy := p0 ++ ":" ++ p1 |}
  | _ => Throw (invalidFormat proxyString)
  end.

(** The callback [saveProxyList] maps over the pool: the persisted form of
    one endpoint. *)
Definition proxyToString (p : Proxy) : string :=
  if truthy (username p) && truthy (password p)
  then host p ++ ":" ++ numberToString (port p) ++ ":"
       ++ default "" (username p) ++ ":" ++ default "" (password p)
  else host p ++ ":" ++ numberToString (port p).

Definition DEFAULT_PROXY_LIST : list string :=
  [ "38.154.227.167:5868:kdzrrkqv:763ww9x8x6x3";
    "198.23.239.134:6540:kdzrrkqv:763ww9x8x6x3";
    "207.244.217.165:6712:kdzrrkqv:763ww9x8x6x3";
    "107.172.163.27:6543:kdzrrkqv:763ww9x8x6x3";
    "216.10.27.159:6837:kdzrrkqv:763ww9x8x6x3";
    "136.0.207.84:6661:kdzrrkqv:763ww9x8x6x3";
    "64.64.118.149:6732:kdzrrkqv:763ww9x8x6x3";
    "142.147.128.93:6593:kdzrrkqv:763ww9x8x6x3";
    "104.239.105.125:6655:kdzrrkqv:763ww9x8x6x3";
    "206.41.172.74:6634:kdzrrkqv:763ww9x8x6x3";
    "156.253.166.39:3129::";
    "154.213.193.50:3129::";
    "156.248.82.131:3129::";
    "156.242.34.12:3129::";
    "45.201.10.76:3129::";
    "156.242.33.139:3129::";
    "156.228.176.249:3129::";
    "154.213.166.44:3129::" ].

Definition MAX_PROXY_RETRIES : nat := 3.
Definition PROXY_TIMEOUT : Z := 15000.
Definition MAX_405_ERRORS : nat := 5.

(** ** Health statistics *)

Record ProxyStats : Type := mkStats {
  totalRequests : Z;
  successfulRequests : Z;
  totalResponseTime : Z;
  lastUsed : Z;
  failures : Z;
  avgResponseTime : Z;
  blockedCount : Z;
  lastBlocked : Z
}.

(** The object literal [updateProxyStats] installs on first reference. *)
Definition freshStats : ProxyStats :=
  {| totalRequests := 0; successfulRequests := 0; totalResponseTime := 0;
     lastUsed := 0; failures := 0; avgResponseTime := 0;
     blockedCount := 0; lastBlocked := 0 |}.

(** ** Module state *)

(** One element of the JSON array stored under the pool key. *)
Inductive JsonElem : Type :=
| JString (s : string)
| JOther.   (* any JSON value that is not a string: it has no [split] *)

(** What [localStorage.getItem(PROXY_STORAGE_KEY)] holds, by how
    [loadProxyList] treats it. *)
Inductive ListBlob : Type :=
| LBlank                          (* the empty string, falsy *)
| LMalformed                      (* [JSON.parse] throws *)
| LNotArray                       (* valid JSON, not an array *)
| LArray (elems : list JsonElem).

(** What is stored under the statistics key: nothing readable, or an
    object of statistics records as [saveProxyStats] writes it. *)
Inductive StatsBlob : Type :=
| SBlank
| SMalformed
| SObject (m : gmap string ProxyStats).

Record Storage : Type := mkStorage {
  storedList : option ListBlob;       (* PROXY_STORAGE_KEY *)
  storedStats : option StatsBlob;     (* PROXY_STATS_KEY *)
  storedEnabled : option string       (* PROXY_ENABLED_KEY *)
}.

Record World : Type := mkWorld {
  proxyList : list Proxy;
  proxyStats : gmap string ProxyStats;
  proxyEnabled : bool;
  http405Count : nat;
  localStorage : Storage;
  statsSaveScheduled : bool   (* the 2 s timer armed by [saveProxyStats] *)
}.

Definition setProxyList (l : list Proxy) (w : World) : World :=
  {| proxyList := l; proxyStats := proxyStats w; proxyEnabled := proxyEnabled w;
     http405Count := http405Count w; localStorage := localStorage w;
     statsSaveScheduled := statsSaveScheduled w |}.

Definition setProxyStats (m : gmap string ProxyStats) (w : World) : World :=
  {| proxyList := proxyList w; proxyStats := m; proxyEnabled := proxyEnabled w;
     http405Count := http405Count w; localStorage := localStorage w;
     statsSaveScheduled := statsSaveScheduled w |}.

Definition setHttp405Count (n : nat) (w : World) : World :=
  {| proxyList := proxyList w; proxyStats := proxyStats w;
     proxyEnabled := proxyEnabled w; http405Count := n;
     localStorage := localStorage w;
     statsSaveScheduled := statsSaveScheduled w |}.

Definition setLocalStorage (s : Storage) (w : World) : World :=
  {| proxyList := proxyList w; proxyStats := proxyStats w;
     proxyEnabled := proxyEnabled w; http405Count := http405Count w;
     localStorage := s; statsSaveScheduled := statsSaveScheduled w |}.

(** ** Circuit flag *)

Definition isProxyEnabled (w : World) : bool :=
  match storedEnabled (localStorage w) with
  | Some saved => String.eqb saved "true"
  | None => false
  end.

Definition setProxyEnabled (enabled : bool) (w : World) : World :=
  {| proxyList := proxyList w; proxyStats := proxyStats w;
     proxyEnabled := enabled; http405Count := http405Count w;
     localStorage :=
       {| storedList := storedList (localStorage w);
          storedStats := storedStats (localStorage w);
          storedEnabled := Some (if enabled then "true" else "false") |};
     statsSaveScheduled := statsSaveScheduled w |}.

(** ** Pool store *)

Definition saveProxyList (w : World) : World :=
  setLocalStorage
    {| storedList := Some (LArray (map (fun p => JString (proxyToString p)) (proxyList w)));
       storedStats := storedStats (localStorage w);
       storedEnabled := storedEnabled (localStorage w) |} w.

(** [parseProxy] applied to an element of the stored array; a non-string
    element raises a [TypeError] at [proxyString.split]. *)
Definition parseStored (e : JsonElem) : completion Proxy :=
  match e with
  | JString s => parseProxy s
  | JOther => Throw "proxyString.split is not a function"
  end.

(** [DEFAULT_PROXY_LIST.map(parseProxy)]: every built-in entry has four
    fields, so the map never throws (see [defaultPool_parses]). *)
Definition defaultPool : list Proxy :=
  match mapM parseProxy DEFAULT_PROXY_LIST with
  | Normal l => l
  | Throw _ => []
  end.
Arguments defaultPool : simpl never.

(** The body of the [try] block of [loadProxyList]. *)
Definition loadProxyList_try (w : World) : completion World :=
  let useDefault := Normal (saveProxyList (setProxyList defaultPool w)) in
  match storedList (localStorage w) with
  | None | Some LBlank => useDefault
  | Some LMalformed => Throw "JSON.parse: unexpected token"
  | Some LNotArray => useDefault
  | Some (LArray elems) =>
      if (0 <? length elems)%nat
      then bind (mapM parseStored elems) (fun l => Normal (setProxyList l w))
      else useDefault
  end.

Definition loadProxyList (w : World) : World :=
  match loadProxyList_try w with
  | Normal w' => w'
  | Throw _ =>
      (* catch: fall back to the default list, nothing is persisted *)
      setProxyList defaultPool w
  end.

Definition loadProxyStats (w : World) : World :=
  match storedStats (localStorage w) with
  | Some (SObject m) => setProxyStats m w
  | Some SBlank | None => setProxyStats ∅ w
  | Some SMalformed => setProxyStats ∅ w
  end.

Definition saveProxyStats (w : World) : World :=
  {| proxyList := proxyList w; proxyStats := proxyStats w;
     proxyEnabled := proxyEnabled w; http405Count := http405Count w;
     localStorage := localStorage w; statsSaveScheduled := true |}.

Definition ensureProxyDataLoaded (w : World) : World :=
  if (length (proxyList w) =? 0)%nat
  then loadProxyStats (loadProxyList w)
  else w.

(** [addProxy]: the boolean it returns and the state it leaves. *)
Definition addProxy (proxyString : string) (w : World) : bool * World :=
  match parseProxy proxyString with
  | Normal p =>
      if existsb (fun q => String.eqb (proxy q) (proxy p)) (proxyList w)
      then (false, w)
      else (true, saveProxyList (setProxyList (proxyList w ++ [p]) w))
  | Throw _ => (false, w)
  end.

(** ** Health tracker *)

(** [updateProxyStats(proxyKey, success, responseTime, isBlocked)];
    [tUsed] and [tBlocked] are the two readings of the clock. *)
Definition updateProxyStats (proxyKey : string) (success : bool)
    (responseTime : Z) (isBlocked : bool) (tUsed tBlocked : Z) (w : World) : World :=
  let s0 := default freshStats (proxyStats w !! proxyKey) in
  let total := totalRequests s0 + 1 in
  let s1 :=
    if success then
      let succ := successfulRequests s0 + 1 in
      let sum := totalResponseTime s0 + responseTime in
      {| totalRequests := total; successfulRequests := succ;
         totalResponseTime := sum; lastUsed := tUsed;
         failures := Z.max 0 (failures s0 - 1);
         avgResponseTime := roundDiv sum succ;
         blockedCount := blockedCount s0; lastBlocked := lastBlocked s0 |}
    else
      {| totalRequests := total; successfulRequests := successfulRequests s0;
         totalResponseTime := totalResponseTime s0; lastUsed := tUsed;
         failures := failures s0 + 1;
         avgResponseTime := avgResponseTime s0;
         blockedCount := if isBlocked then blockedCount s0 + 1 else blockedCount s0;
         lastBlocked := if isBlocked then tBlocked else lastBlocked s0 |} in
  saveProxyStats (setProxyStats (<[proxyKey := s1]> (proxyStats w)) w).

(** [markProxyAsBlocked(proxyKey)]; [tUsed] and [tBlocked] are the clock
    readings of the blocking update, [t1], [t2], [t3] those of the three
    extra failures of the loop. *)
Definition markProxyAsBlocked (proxyKey : string) (tUsed tBlocked t1 t2 t3 : Z)
    (w : World) : World :=
  let w0 := updateProxyStats proxyKey false 30000 true tUsed tBlocked w in
  fold_left (fun acc t => updateProxyStats proxyKey false 30000 false t t acc)
            [t1; t2; t3] w0.

(** ** Weighted selector *)

Definition blockCooldown : Z := 60 * 60 * 1000.

(** The local [weight] of the candidate loop before the floor is applied;
    [now] is [Date.now()]. *)
Definition rawWeight (stats : option ProxyStats) (now : Z) : Q :=
  match stats with
  | Some s =>
      if 0 <? totalRequests s then
        let successRate := (inject_Z (successfulRequests s) / inject_Z (totalRequests s))%Q in
        let w0 := (successRate * 10)%Q in
        let w1 := if 0 <? failures s
                  then (w0 / inject_Z (failures s * 2))%Q else w0 in
        if 0 <? blockedCount s then
          if now - lastBlocked s <? blockCooldown
          then (w1 / inject_Z (blockedCount s * 10))%Q
          else (w1 / inject_Z (blockedCount s * 2))%Q
        else w1
      else 1%Q
  | None => 1%Q
  end.

(** The weight [selectRandomProxy] gives one candidate. *)
Definition weightOf (stats : option ProxyStats) (now : Z) : Q :=
  Qmax (rawWeight stats now) (1 # 100).

(** The subtract-until-non-positive loop over the weighted candidates. *)
Fixpoint drawWeighted (items : list (Proxy * Q)) (random : Q) : option Proxy :=
  match items with
  | [] => None
  | (p, weight) :: rest =>
      let random' := (random - weight)%Q in
      if Qle_bool random' 0 then Some p else drawWeighted rest random'
  end.

(** [list[Math.floor(r * list.length)]]; out of range is [undefined]. *)
Definition randomElement {A} (l : list A) (r : Q) : option A :=
  let i := Qfloor (r * inject_Z (Z.of_nat (length l))) in
  if i <? 0 then None else l !! Z.to_nat i.

(** [selectRandomProxy(excludeProxies)]; [rnd1], [rnd2] are the values of
    [Math.random()] in reading order. *)
Definition selectRandomProxy (excludeProxies : list string) (now : Z) (rnd1 rnd2 : Q)
    (w : World) : World * option Proxy :=
  let w1 := ensureProxyDataLoaded w in
  if (length (proxyList w1) =? 0)%nat then (w1, None)
  else
    let availableProxies :=
      List.filter (fun p => negb (existsb (String.eqb (proxy p)) excludeProxies))
                  (proxyList w1) in
    if (length availableProxies =? 0)%nat
    then (w1, randomElement (proxyList w1) rnd1)
    else
      let proxiesWithWeights :=
        map (fun p => (p, weightOf (proxyStats w1 !! proxy p) now)) availableProxies in
      let totalWeight :=
        fold_left (fun sum item => (sum + snd item)%Q) proxiesWithWeights 0%Q in
      match drawWeighted proxiesWithWeights (rnd1 * totalWeight)%Q with
      | Some p => (w1, Some p)
      | None => (w1, randomElement availableProxies rnd2)
      end.

(** The [proxy] field of [getProxyConfig(proxy)]. *)
Definition getProxyConfig (p : Proxy) : string :=
  if truthy (username p) && truthy (password p)
  then "http://" ++ default "" (username p) ++ ":" ++ default "" (password p)
       ++ "@" ++ host p ++ ":" ++ numberToString (port p)
  else "http://" ++ host p ++ ":" ++ numberToString (port p).

(** ** Resilient executor *)

(** The fields of the [options] object the executor reads. *)
Record Options : Type := mkOptions {
  method : option string;
  url : string;
  data : option string;
  timeout : option Z
}.

(** One call of [GM_xmlhttpRequest]: the request as handed to the
    transport. *)
Record Request : Type := mkRequest {
  reqMethod : option string;
  reqUrl : string;
  reqData : option string;
  reqTimeout : option Z;
  reqProxy : option string     (* absent for a direct request *)
}.

Record Response : Type := mkResponse {
  status : Z;
  responseText : string
}.

(** What the transport does with one request. *)
Inductive Outcome : Type :=
| OnLoad (response : Response)
| OnError (error : string)         (* the error object given to [onerror] *)
| OnTimeout
| SetupThrows (message : string).  (* [GM_xmlhttpRequest] itself throws *)

(** Value a rejected promise carries. *)
Inductive Rejection : Type :=
| TransportError (error : string)  (* the object [onerror] received, passed on *)
| NewError (message : string)      (* [new Error(message)] *)
| Thrown (message : string).       (* exception raised inside the promise executor *)

Inductive Settlement : Type :=
| Resolved (response : Response)
| Rejected (reason : Rejection)
| NeverSettles.   (* an uncaught exception in a callback: the promise stays pending *)

(** The request in flight, by the place in [makeProxyRequest] that issued it. *)
Inductive InFlight : Type :=
| ViaProxy (selectedProxy : Proxy) (requestStart : Z)    (* in [attemptRequest], inside [try] *)
| GetReissue (selectedProxy : Proxy) (requestStart : Z)  (* in [onload], after a 405 on POST *)
| DirectDisabled     (* proxy layer disabled *)
| DirectNoProxy      (* [selectRandomProxy] returned null *)
| DirectExhausted    (* [attempt > MAX_PROXY_RETRIES] *)
| DirectAfterTrip.   (* the 405 streak reached [MAX_405_ERRORS] *)

Inductive Phase : Type :=
| Awaiting (f : InFlight)
| Settled (s : Settlement).

(** One entry of the log of transport calls, oldest first. *)
Definition Event : Type := (InFlight * Request)%type.

(** State of one call of [makeProxyRequest]: its closure variables, the
    transport calls it made so far and the module state. *)
Record Call : Type := mkCall {
  phase : Phase;
  attempt : nat;
  excludedProxies : list string;
  dispatched : list Event;
  world : World
}.

(** Clock and random readings one run of [attemptRequest] makes. *)
Record Readings : Type := mkReadings {
  tSelect : Z;      (* [Date.now()] in the weight computation *)
  rnd1 : Q;
  rnd2 : Q;
  tStart : Z        (* [requestStart] *)
}.

(** What happens to the request in flight, with the readings of the code
    that runs in response. *)
Record Tick : Type := mkTick {
  outcome : Outcome;
  tDone : Z;        (* [Date.now()] when the callback computes [responseTime] *)
  tUsed : Z;        (* [Date.now()] inside [updateProxyStats] *)
  next : Readings   (* for the [attemptRequest] the retry timer starts *)
}.

Definition directRequest (options : Options) : Request :=
  {| reqMethod := method options; reqUrl := url options; reqData := data options;
     reqTimeout := timeout options; reqProxy := None |}.

Definition proxiedRequest (options : Options) (p : Proxy) : Request :=
  {| reqMethod := method options; reqUrl := url options; reqData := data options;
     reqTimeout := Some PROXY_TIMEOUT; reqProxy := Some (getProxyConfig p) |}.

Definition getRequest (options : Options) (p : Proxy) : Request :=
  {| reqMethod := Some "GET";
     reqUrl := if truthy (data options)
               then url options ++ "?" ++ default "" (data options)
               else url options;
     reqData := None;
     reqTimeout := Some PROXY_TIMEOUT; reqProxy := Some (getProxyConfig p) |}.

Definition isPost (options : Options) : bool :=
  match method options with
  | Some m => String.eqb m "POST"
  | None => false
  end.

Definition dispatch (f : InFlight) (r : Request) (c : Call) (w : World) : Call :=
  {| phase := Awaiting f; attempt := attempt c;
     excludedProxies := excludedProxies c;
     dispatched := dispatched c ++ [(f, r)]; world := w |}.

Definition settle (s : Settlement) (c : Call) (w : World) : Call :=
  {| phase := Settled s; attempt := attempt c;
     excludedProxies := excludedProxies c;
     dispatched := dispatched c; world := w |}.

(** The inner function [attemptRequest]. *)
Definition attemptRequest (options : Options) (rd : Readings) (c : Call) : Call :=
  let c1 := {| phase := phase c; attempt := S (attempt c);
               excludedProxies := excludedProxies c;
               dispatched := dispatched c; world := world c |} in
  if (MAX_PROXY_RETRIES <? attempt c1)%nat
  then dispatch DirectExhausted (directRequest options) c1 (world c1)
  else
    match selectRandomProxy (excludedProxies c1) (tSelect rd) (rnd1 rd) (rnd2 rd) (world c1) with
    | (w1, None) => dispatch DirectNoProxy (directRequest options) c1 w1
    | (w1, Some selectedProxy) =>
        dispatch (ViaProxy selectedProxy (tStart rd))
                 (proxiedRequest options selectedProxy) c1 w1
    end.

(** Common tail of the failure branches: record the failure, exclude the
    endpoint, and let the timer run [attemptRequest] again. *)
Definition failAndRetry (options : Options) (selectedProxy : Proxy)
    (responseTime : Z) (tk : Tick) (c : Call) : Call :=
  let w1 := updateProxyStats (proxy selectedProxy) false responseTime false
                             (tUsed tk) (tUsed tk) (world c) in
  attemptRequest options (next tk)
    {| phase := phase c; attempt := attempt c;
       excludedProxies := excludedProxies c ++ [proxy selectedProxy];
       dispatched := dispatched c; world := w1 |}.

(** The [onload] handler of a proxied request. *)
Definition onload (options : Options) (selectedProxy : Proxy) (requestStart : Z)
    (response : Response) (tk : Tick) (c : Call) : Call :=
  let responseTime := tDone tk - requestStart in
  if status response =? 200 then
    let w1 := setHttp405Count 0 (world c) in
    let w2 := updateProxyStats (proxy selectedProxy) true responseTime false
                               (tUsed tk) (tUsed tk) w1 in
    settle (Resolved response) c w2
  else if status response =? 405 then
    let w1 := setHttp405Count (S (http405Count (world c))) (world c) in
    let w2 := updateProxyStats (proxy selectedProxy) false responseTime false
                               (tUsed tk) (tUsed tk) w1 in
    if (MAX_405_ERRORS <=? http405Count w2)%nat then
      dispatch DirectAfterTrip (directRequest options) c (setProxyEnabled false w2)
    else if isPost options then
      dispatch (GetReissue selectedProxy requestStart)
               (getRequest options selectedProxy) c w2
    else
      attemptRequest options (next tk)
        {| phase := phase c; attempt := attempt c;
           excludedProxies := excludedProxies c ++ [proxy selectedProxy];
           dispatched := dispatched c; world := w2 |}
  else failAndRetry options selectedProxy responseTime tk c.

(** The transport reports on the request in flight.  A call of
    [GM_xmlhttpRequest] that throws is caught only in [attemptRequest];
    thrown from a handler or a timer it leaves the promise pending, thrown
    while the promise executor still runs (the disabled path, the first
    [attemptRequest]) it rejects the promise. *)
Definition deliver (options : Options) (c : Call) (tk : Tick) : Call :=
  match phase c with
  | Settled _ => c
  | Awaiting (ViaProxy p start) =>
      match outcome tk with
      | OnLoad r => onload options p start r tk c
      | OnError _ | OnTimeout | SetupThrows _ =>
          failAndRetry options p (tDone tk - start) tk c
      end
  | Awaiting (GetReissue p start) =>
      match outcome tk with
      | OnLoad r => onload options p start r tk c
      | OnError _ | OnTimeout => failAndRetry options p (tDone tk - start) tk c
      | SetupThrows _ => settle NeverSettles c (world c)
      end
  | Awaiting DirectDisabled =>
      match outcome tk with
      | OnLoad r => settle (Resolved r) c (world c)
      | OnError e => settle (Rejected (TransportError e)) c (world c)
      | OnTimeout => settle (Rejected (NewError "Request timeout")) c (world c)
      | SetupThrows m => settle (Rejected (Thrown m)) c (world c)
      end
  | Awaiting DirectNoProxy =>
      match outcome tk with
      | OnLoad r => settle (Resolved r) c (world c)
      | OnError e => settle (Rejected (TransportError e)) c (world c)
      | OnTimeout => settle (Rejected (NewError "Direct request timeout")) c (world c)
      | SetupThrows m =>
          if (attempt c =? 1)%nat
          then settle (Rejected (Thrown m)) c (world c)
          else settle NeverSettles c (world c)
      end
  | Awaiting DirectExhausted =>
      match outcome tk with
      | OnLoad r => settle (Resolved r) c (world c)
      | OnError _ | OnTimeout =>
          settle (Rejected (NewError "All proxy attempts and direct request failed"))
                 c (world c)
      | SetupThrows _ => settle NeverSettles c (world c)
      end
  | Awaiting DirectAfterTrip =>
      match outcome tk with
      | OnLoad r => settle (Resolved r) c (world c)
      | OnError _ =>
          settle (Rejected (NewError "Proxy auto-disabled and direct request failed"))
                 c (world c)
      | OnTimeout =>
          settle (Rejected (NewError "Proxy auto-disabled and direct request timeout"))
                 c (world c)
      | SetupThrows _ => settle NeverSettles c (world c)
      end
  end.

(** [makeProxyRequest(options)] up to the point where it returns the
    promise: the state of the call with its first request in flight. *)
Definition makeProxyRequest (options : Options) (rd : Readings) (w : World) : Call :=
  let c0 := {| phase := Awaiting DirectDisabled; attempt := 0;
               excludedProxies := []; dispatched := []; world := w |} in
  if negb (isProxyEnabled w)
  then dispatch DirectDisabled (directRequest options) c0 w
  else attemptRequest options rd c0.

(** The call driven by the transport's reports, oldest first, with no
    other call touching the module state meanwhile. *)
Definition runCall (options : Options) (rd : Readings) (ticks : list Tick)
    (w : World) : Call :=
  fold_left (deliver options) ticks (makeProxyRequest options rd w).

Definition isProxied (e : Event) : bool :=
  match fst e with
  | ViaProxy _ _ | GetReissue _ _ => true
  | _ => false
  end.

Definition isReissue (e : Event) : bool :=
  match fst e with
  | GetReissue _ _ => true
  | _ => false
  end.

Definition isDirect (e : Event) : bool := negb (isProxied e).

Definition countEvents (f : Event -> bool) (l : list Event) : nat :=
  length (List.filter f l).

(** ** Definitions used to state the properties *)

(** A string without the separator is a single field. *)
Fixpoint noColon (s : string) : bool :=
  match s with
  | EmptyString => true
  | String c r => negb (Ascii.eqb c ":") && noColon r
  end.

(** The restore the specification describes: stored entries that fail to
    parse are dropped one by one, the others are kept in order. *)
Fixpoint restoreDroppingMalformed (elems : list JsonElem) : list Proxy :=
  match elems with
  | [] => []
  | e :: rest =>
      match parseStored e with
      | Normal p => p :: restoreDroppingMalformed rest
      | Throw _ => restoreDroppingMalformed rest
      end
  end.

Definition emptyStorage : Storage :=
  {| storedList := None; storedStats := None; storedEnabled := None |}.

(** The module state before anything was loaded, with the layer switched
    on or off in storage. *)
Definition initialWorld (enabled : bool) : World :=
  {| proxyList := []; proxyStats := ∅; proxyEnabled := enabled; http405Count := 0;
     localStorage :=
       {| storedList := None; storedStats := None;
          storedEnabled := Some (if enabled then "true" else "false") |};
     statsSaveScheduled := false |}.

(** A stored pool whose middle entry has three fields. *)
Definition worldWithBadEntry : World :=
  setLocalStorage
    {| storedList := Some (LArray [JString "10.0.0.1:8080"; JString "10.0.0.2:8080:user";
                                   JString "10.0.0.3:3128:alice:secret"]);
       storedStats := None; storedEnabled := Some "true" |}
    (initialWorld true).

(** One call of [updateProxyStats], with its clock readings. *)
Record StatsCall : Type := mkStatsCall {
  scKey : string;
  scSuccess : bool;
  scResponseTime : Z;
  scBlocked : bool;
  scUsedAt : Z;
  scBlockedAt : Z
}.

Definition applyStatsCall (w : World) (c : StatsCall) : World :=
  updateProxyStats (scKey c) (scSuccess c) (scResponseTime c) (scBlocked c)
                   (scUsedAt c) (scBlockedAt c) w.

(** The average as [updateProxyStats] maintains it: the rounded quotient
    once there is a success, zero before. *)
Definition avgInvariant (s : ProxyStats) : Prop :=
  0 <= successfulRequests s /\
  (0 < successfulRequests s ->
   avgResponseTime s = roundDiv (totalResponseTime s) (successfulRequests s)) /\
  (successfulRequests s = 0 -> avgResponseTime s = 0).

(** An endpoint that failed once and never succeeded. *)
Definition worldOneFailure : World :=
  updateProxyStats "10.0.0.1:8080" false 120 false 1000 1000 (initialWorld true).

(** Sample requests, readings and transport reports. *)
Definition getOptions : Options :=
  {| method := Some "GET"; url := "https://example.org/solve";
     data := None; timeout := Some 60000 |}.

Definition postOptions : Options :=
  {| method := Some "POST"; url := "https://example.org/solve";
     data := Some "a=1"; timeout := Some 60000 |}.

Definition readingsAt (t : Z) : Readings :=
  {| tSelect := t; rnd1 := 0; rnd2 := 0; tStart := t |}.

Definition tickAt (o : Outcome) (t : Z) : Tick :=
  {| outcome := o; tDone := t; tUsed := t; next := readingsAt (t + 1000) |}.

Definition responseWith (st : Z) : Response :=
  {| status := st; responseText := "ok" |}.

(** The status a handler of a proxied request sees, if the report is a
    response to a proxied request. *)
Definition proxiedStatus (c : Call) (tk : Tick) : option Z :=
  match phase c, outcome tk with
  | Awaiting (ViaProxy _ _), OnLoad r => Some (status r)
  | Awaiting (GetReissue _ _), OnLoad r => Some (status r)
  | _, _ => None
  end.

(** The closure state [c] of a call on the module state [w]. *)
Definition withWorld (c : Call) (w : World) : Call :=
  {| phase := phase c; attempt := attempt c; excludedProxies := excludedProxies c;
     dispatched := dispatched c; world := w |}.

(** Calls share the module state.  One step of their interleaving: a
    new call starts, or the transport reports to a call in flight. *)
Inductive SharedStep : Type :=
| CallStarts (options : Options) (rd : Readings)
| HandlerRuns (options : Options) (c : Call) (tk : Tick).

Definition deliverShared (w : World) (step : SharedStep) : World :=
  match step with
  | CallStarts options rd => world (makeProxyRequest options rd w)
  | HandlerRuns options c tk => world (deliver options (withWorld c w) tk)
  end.

Definition stepStatus (step : SharedStep) : option Z :=
  match step with
  | CallStarts _ _ => None
  | HandlerRuns _ c tk => proxiedStatus c tk
  end.

Definition is405 (step : SharedStep) : bool :=
  match stepStatus step with
  | Some st => st =? 405
  | None => false
  end.

Definition is200 (step : SharedStep) : bool :=
  match stepStatus step with
  | Some st => st =? 200
  | None => false
  end.


(** Counts over the log of transport calls of one call. *)
Definition proxiedCount (c : Call) : nat := countEvents isProxied (dispatched c).
Definition reissueCount (c : Call) : nat := countEvents isReissue (dispatched c).
Definition directCount (c : Call) : nat := countEvents isDirect (dispatched c).

(** The log ends with its only direct request. *)
Definition directIsLast (l : list Event) : Prop :=
  exists l0 e, l = (l0 ++ [e])%list /\ isDirect e = true /\ countEvents isDirect l0 = 0%nat.

(** What holds whenever [attemptRequest] is about to run, as long as no
    other call has reset the streak. *)
Definition readyToAttempt (options : Options) (c : Call) : Prop :=
  directCount c = 0%nat /\
  proxiedCount c = (attempt c + reissueCount c)%nat /\
  (attempt c <= MAX_PROXY_RETRIES)%nat /\
  (reissueCount c <= http405Count (world c))%nat /\
  (reissueCount c <= MAX_405_ERRORS - 1)%nat /\
  (isPost options = false -> reissueCount c = 0%nat).

(** What holds of a call between two reports of the transport, as long
    as no other call has reset the streak: every GET reissue of the call
    is counted in the streak. *)
Definition callInvariant (options : Options) (c : Call) : Prop :=
  (reissueCount c <= MAX_405_ERRORS - 1)%nat /\
  (isPost options = false -> reissueCount c = 0%nat) /\
  (proxiedCount c <= MAX_PROXY_RETRIES + reissueCount c)%nat /\
  (attempt c <= S MAX_PROXY_RETRIES)%nat /\
  match phase c with
  | Awaiting (ViaProxy _ _) | Awaiting (GetReissue _ _) =>
      directCount c = 0%nat /\
      proxiedCount c = (attempt c + reissueCount c)%nat /\
      (attempt c <= MAX_PROXY_RETRIES)%nat /\
      (reissueCount c <= http405Count (world c))%nat
  | Awaiting _ => directIsLast (dispatched c)
  | Settled _ => directCount c = 0%nat \/ directIsLast (dispatched c)
  end.

Definition isSettled (c : Call) : bool :=
  match phase c with
  | Settled _ => true
  | Awaiting _ => false
  end.

(** The place that issued the latest transport call of a call. *)
Definition lastKind (c : Call) : option InFlight := fst <$> last (dispatched c).

(** The statistics of an endpoint after successes of 1 ms and 2 ms. *)
Definition statsAfterTwoSuccesses : ProxyStats :=
  {| totalRequests := 2; successfulRequests := 2; totalResponseTime := 3;
     lastUsed := 2000; failures := 0; avgResponseTime := 2;
     blockedCount := 0; lastBlocked := 0 |}.

(** A mostly healthy endpoint that was blocked once, at time 1000. *)
Definition statsBlockedOnce : ProxyStats :=
  {| totalRequests := 10; successfulRequests := 9; totalResponseTime := 900;
     lastUsed := 1000; failures := 0; avgResponseTime := 100;
     blockedCount := 1; lastBlocked := 1000 |}.

(** ** Pool administration, reporting and probing *)

(** [l.findIndex(f)], with [None] for [-1]. *)
Fixpoint findIndex {A} (f : A -> bool) (l : list A) : option nat :=
  match l with
  | [] => None
  | x :: rest => if f x then Some 0%nat else S <$> findIndex f rest
  end.

(** The key [removeProxy] derives from its argument:
    [split(":").slice(0, 2).join(":")] when the string has a colon. *)
Definition removalKey (proxyString : string) : string :=
  if negb (noColon proxyString)
  then String.concat ":" (take 2 (split ":" proxyString))
  else proxyString.

(** [removeProxy]: the boolean it returns and the state it leaves. *)
Definition removeProxy (proxyString : string) (w : World) : bool * World :=
  let proxyKey := removalKey proxyString in
  match findIndex (fun p => String.eqb (proxy p) proxyKey) (proxyList w) with
  | Some index =>
      let w1 := saveProxyList (setProxyList (delete index (proxyList w)) w) in
      (true, saveProxyStats (setProxyStats (delete proxyKey (proxyStats w1)) w1))
  | None => (false, w)
  end.

(** [resetProxyStats]: the map is emptied and the stored copy removed. *)
Definition resetProxyStats (w : World) : World :=
  setLocalStorage
    {| storedList := storedList (localStorage w); storedStats := None;
       storedEnabled := storedEnabled (localStorage w) |}
    (setProxyStats ∅ w).

(** One element of [summary.proxies]. *)
Record ProxyInfo : Type := mkProxyInfo {
  infoProxy : string;
  hasAuth : bool;
  infoTotalRequests : Z;
  successRate : Z;
  infoFailures : Z;
  infoAvgResponseTime : Z;
  infoLastUsed : option Z;      (* [undefined] for an endpoint without statistics *)
  infoBlockedCount : Z;
  infoLastBlocked : Z
}.

Record Summary : Type := mkSummary {
  totalProxies : nat;
  workingProxies : nat;
  failedProxies : nat;
  blockedProxies : nat;
  proxies : list ProxyInfo
}.

(** The counter the category chain of [getProxyStatsSummary] increments. *)
Inductive Category : Type := Working | Failed | Blocked | Uncounted.

(** [Math.round((successful / total) * 100)], or 0 without requests; the
    division and the multiplication each round to a double. *)
Definition successRateOf (stats : ProxyStats) : Z :=
  if 0 <? totalRequests stats
  then mathRound
         (roundDouble
            (roundDouble (inject_Z (successfulRequests stats)
                          / inject_Z (totalRequests stats))%Q * 100)%Q)
  else 0.

(** The [if]/[else if] chain over one endpoint's statistics. *)
Definition categorize (stats : ProxyStats) (now : Z) : Category :=
  let rate := successRateOf stats in
  if 0 <? blockedCount stats then
    if now - lastBlocked stats <? blockCooldown then Blocked
    else if (failures stats <? 3) && (50 <? rate) then Working
    else Failed
  else if (failures stats <? 3) && (50 <? rate) then Working
  else if (3 <=? failures stats) || ((0 <? totalRequests stats) && (rate <? 50))
  then Failed
  else Uncounted.

Definition proxyInfoOf (p : Proxy) (entry : option ProxyStats) : ProxyInfo :=
  let stats := default freshStats entry in
  {| infoProxy := proxy p;
     hasAuth := truthy (username p) && truthy (password p);
     infoTotalRequests := totalRequests stats;
     successRate := successRateOf stats;
     infoFailures := failures stats;
     infoAvgResponseTime := avgResponseTime stats;
     infoLastUsed := lastUsed <$> entry;
     infoBlockedCount := blockedCount stats;
     infoLastBlocked := lastBlocked stats |}.

(** The body of the [forEach] callback. *)
Definition summarizeOne (stats : gmap string ProxyStats) (now : Z)
    (summary : Summary) (p : Proxy) : Summary :=
  let entry := stats !! proxy p in
  let info := proxyInfoOf p entry in
  let bump (c : Category) (n : nat) : nat :=
    match categorize (default freshStats entry) now with
    | Working => match c with Working => S n | _ => n end
    | Failed => match c with Failed => S n | _ => n end
    | Blocked => match c with Blocked => S n | _ => n end
    | Uncounted => n
    end in
  {| totalProxies := totalProxies summary;
     workingProxies := bump Working (workingProxies summary);
     failedProxies := bump Failed (failedProxies summary);
     blockedProxies := bump Blocked (blockedProxies summary);
     proxies := proxies summary ++ [info] |}.

(** [getProxyStatsSummary()]; [now] is [Date.now()]. *)
Definition getProxyStatsSummary (now : Z) (w : World) : World * Summary :=
  let w1 := ensureProxyDataLoaded w in
  (w1, fold_left (summarizeOne (proxyStats w1) now) (proxyList w1)
         {| totalProxies := length (proxyList w1); workingProxies := 0;
            failedProxies := 0; blockedProxies := 0; proxies := [] |}).

(** [enableProxyForAutomatedQueries()]: the boolean it returns and the
    state it leaves; when it returns [true] it has also armed the timer
    that runs [testProxySubset(5)] a second later. *)
Definition enableProxyForAutomatedQueries (w : World) : bool * World :=
  if negb (isProxyEnabled w)
  then (true, setProxyEnabled true (ensureProxyDataLoaded w))
  else (false, w).

(** What the transport does with one probe, with the clock readings
    around it. *)
Record ProbeReport : Type := mkProbeReport {
  probeOutcome : Outcome;
  probeStart : Z;    (* [startTime] *)
  probeDone : Z;     (* [Date.now()] after the [await] *)
  probeUsed : Z      (* [Date.now()] inside [updateProxyStats] *)
}.

Record ProbeResult : Type := mkProbeResult {
  tested : nat;
  passed : nat
}.

(** One iteration of the probing loops: [penalty] is the response time
    charged when the probe is rejected (error, timeout or a throwing
    transport call, all caught by the loop's [catch]). *)
Definition probeOne (penalty : Z) (p : Proxy) (r : ProbeReport)
    (acc : nat * World) : nat * World :=
  let '(successCount, w) := acc in
  match probeOutcome r with
  | OnLoad response =>
      let responseTime := probeDone r - probeStart r in
      if status response =? 200
      then (S successCount,
            updateProxyStats (proxy p) true responseTime false (probeUsed r) (probeUsed r) w)
      else (successCount,
            updateProxyStats (proxy p) false responseTime false (probeUsed r) (probeUsed r) w)
  | OnError _ | OnTimeout | SetupThrows _ =>
      (successCount,
       updateProxyStats (proxy p) false penalty false (probeUsed r) (probeUsed r) w)
  end.

(** The [for ... of] loop; [reports i] is what happens to the probe of
    the [i]-th endpoint. *)
Fixpoint probeLoop (penalty : Z) (ps : list Proxy) (i : nat)
    (reports : nat -> ProbeReport) (acc : nat * World) : nat * World :=
  match ps with
  | [] => acc
  | p :: rest => probeLoop penalty rest (S i) reports (probeOne penalty p (reports i) acc)
  end.

(** [l.slice(0, e)]: a negative [e] counts from the end. *)
Definition sliceTo {A} (l : list A) (e : Z) : list A :=
  if e <? 0
  then take (Z.to_nat (Z.max (Z.of_nat (length l) + e) 0)) l
  else take (Z.to_nat e) l.

(** [testProxySubset(count)] run to completion; [None] is the
    [undefined] it returns when the layer is disabled. *)
Definition testProxySubset (count : Z) (reports : nat -> ProbeReport) (w : World)
    : option ProbeResult * World :=
  if negb (isProxyEnabled w) then (None, w)
  else
    let w1 := ensureProxyDataLoaded w in
    let subsetToTest :=
      sliceTo (proxyList w1) (Z.min count (Z.of_nat (length (proxyList w1)))) in
    let '(successCount, w2) := probeLoop 8000 subsetToTest 0 reports (0%nat, w1) in
    (Some {| tested := length subsetToTest; passed := successCount |}, w2).

(** [testAllProxies()] run to completion. *)
Definition testAllProxies (reports : nat -> ProbeReport) (w : World)
    : option ProbeResult * World :=
  if negb (isProxyEnabled w) then (None, w)
  else
    let w1 := ensureProxyDataLoaded w in
    let '(successCount, w2) := probeLoop 10000 (proxyList w1) 0 reports (0%nat, w1) in
    (Some {| tested := length (proxyList w1); passed := successCount |}, w2).

(** ** Further definitions used to state properties *)

(** The counters of one endpoint are in their natural ranges. *)
Definition statsInRange (s : ProxyStats) : Prop :=
  0 <= successfulRequests s /\
  0 <= failures s /\
  0 <= blockedCount s /\
  successfulRequests s + failures s <= totalRequests s /\
  successfulRequests s + blockedCount s <= totalRequests s.

(** The endpoint was read from a string whose port field is the decimal
    rendering of the port number. *)
Definition canonicalEndpoint (p : Proxy) : Prop :=
  (exists s, parseProxy s = Normal p) /\
  proxy p = host p ++ ":" ++ numberToString (port p).

(** The keys of the endpoints reached through [attemptRequest], oldest
    first. *)
Fixpoint attemptedKeys (l : list Event) : list string :=
  match l with
  | [] => []
  | (ViaProxy p _, _) :: rest => proxy p :: attemptedKeys rest
  | _ :: rest => attemptedKeys rest
  end.

(** Number of answers with status 200 among the first [n] reports. *)
Fixpoint count200 (reports : nat -> ProbeReport) (i n : nat) : nat :=
  match n with
  | O => 0%nat
  | S m =>
      let hit : nat :=
        match probeOutcome (reports i) with
        | OnLoad response => if (status response =? 200)%Z then 1%nat else 0%nat
        | _ => 0%nat
        end in
      (hit + count200 reports (S i) m)%nat
  end.

(** A probe report answering with the given status after 100 ms. *)
Definition probeAnswer (st : Z) : ProbeReport :=
  {| probeOutcome := OnLoad (responseWith st); probeStart := 1000;
     probeDone := 1100; probeUsed := 1100 |}.

(** What reading the serialized form back keeps of an endpoint [p]: key,
    host and port, and the credentials when both are non-empty. *)
Definition reloadedAs (p q : Proxy) : Prop :=
  proxy q = proxy p /\ host q = host p /\ port q = port p /\
  if truthy (username p) && truthy (password p)
  then username q = username p /\ password q = password p
  else username q = None /\ password q = None.

(** The same statistics with another number of successes. *)
Definition withSuccessfulRequests (n : Z) (s : ProxyStats) : ProxyStats :=
  {| totalRequests := totalRequests s; successfulRequests := n;
     totalResponseTime := totalResponseTime s; lastUsed := lastUsed s;
     failures := failures s; avgResponseTime := avgResponseTime s;
     blockedCount := blockedCount s; lastBlocked := lastBlocked s |}.

(** How many endpoints of [ps] have the key [k]. *)
Definition probesOf (k : string) (ps : list Proxy) : Z :=
  Z.of_nat (length (List.filter (fun p => String.eqb (proxy p) k) ps)).

(** While a proxied request is in flight, the keys tried so far are the
    excluded keys followed by the key in flight, all different, and the
    pool is the one the call started with. *)
Definition distinctInvariant (pool : list Proxy) (c : Call) : Prop :=
  proxyList (world c) = pool /\
  NoDup (attemptedKeys (dispatched c)) /\
  match phase c with
  | Awaiting (ViaProxy p _) | Awaiting (GetReissue p _) =>
      attemptedKeys (dispatched c) = (excludedProxies c ++ [proxy p])%list /\
      S (length (excludedProxies c)) = attempt c
  | _ => True
  end.

(** The latest transport call went through a proxy. *)
Definition lastWasProxied (c : Call) : Prop :=
  exists p start, lastKind c = Some (ViaProxy p start) \/
                  lastKind c = Some (GetReissue p start).

(** The request in flight is the latest one logged, and a response handed
    to the caller straight from a proxied request has status 200. *)
Definition resolvedInvariant (c : Call) : Prop :=
  match phase c with
  | Awaiting f => lastKind c = Some f
  | Settled (Resolved r) => lastWasProxied c -> status r = 200
  | Settled _ => True
  end.

(** The part of a failure branch that runs in the handler: the failure
    is recorded and the endpoint excluded. *)
Definition recordFailure (selectedProxy : Proxy) (responseTime : Z) (tk : Tick)
    (c : Call) : Call :=
  {| phase := phase c; attempt := attempt c;
     excludedProxies := excludedProxies c ++ [proxy selectedProxy];
     dispatched := dispatched c;
     world := updateProxyStats (proxy selectedProxy) false responseTime false
                (tUsed tk) (tUsed tk) (world c) |}.

(** The branches of [onload] that end in
    [setTimeout(attemptRequest, 1000)]: the state of the call when the
    handler returns with the timer armed; [None] in the other branches. *)
Definition onloadArms (options : Options) (selectedProxy : Proxy) (requestStart : Z)
    (response : Response) (tk : Tick) (c : Call) : option Call :=
  let responseTime := tDone tk - requestStart in
  if status response =? 200 then None
  else if status response =? 405 then
    let w1 := setHttp405Count (S (http405Count (world c))) (world c) in
    let w2 := updateProxyStats (proxy selectedProxy) false responseTime false
                               (tUsed tk) (tUsed tk) w1 in
    if (MAX_405_ERRORS <=? http405Count w2)%nat then None
    else if isPost options then None
    else Some {| phase := phase c; attempt := attempt c;
                 excludedProxies := excludedProxies c ++ [proxy selectedProxy];
                 dispatched := dispatched c; world := w2 |}
  else Some (recordFailure selectedProxy responseTime tk c).

(** The same for every report: the state in which the retry timer is
    armed, if the code that runs on the report arms it. *)
Definition armsRetry (options : Options) (c : Call) (tk : Tick) : option Call :=
  match phase c with
  | Awaiting (ViaProxy p start) =>
      match outcome tk with
      | OnLoad r => onloadArms options p start r tk c
      | OnError _ | OnTimeout | SetupThrows _ =>
          Some (recordFailure p (tDone tk - start) tk c)
      end
  | Awaiting (GetReissue p start) =>
      match outcome tk with
      | OnLoad r => onloadArms options p start r tk c
      | OnError _ | OnTimeout => Some (recordFailure p (tDone tk - start) tk c)
      | SetupThrows _ => None
      end
  | _ => None
  end.

(** One report of the transport to a call, with what the other calls do
    to the module state meanwhile, oldest first: their starts and the
    runs of their handlers while the request was in flight, and those
    during the second the retry timer waits, if the handler arms it. *)
Record Turn : Type := mkTurn {
  inFlight : list SharedStep;
  report : Tick;
  beforeRetry : list SharedStep
}.

(** The handler of the call runs on the module state the other calls
    left, and so does the [attemptRequest] its timer starts. *)
Definition deliverAmong (options : Options) (c : Call) (t : Turn) : Call :=
  let c0 := withWorld c (fold_left deliverShared (inFlight t) (world c)) in
  match armsRetry options c0 (report t) with
  | Some c1 =>
      attemptRequest options (next (report t))
        (withWorld c1 (fold_left deliverShared (beforeRetry t) (world c1)))
  | None => deliver options c0 (report t)
  end.

(** The call driven by the transport's reports while other calls run
    beside it; [world] is the module state as the call last left it. *)
Definition runCallAmong (options : Options) (rd : Readings) (turns : list Turn)
    (w : World) : Call :=
  fold_left (deliverAmong options) turns (makeProxyRequest options rd w).

(** A report to the call with nothing happening beside it. *)
Definition alone (tk : Tick) : Turn :=
  {| inFlight := []; report := tk; beforeRetry := [] |}.

(** The report is a response with status 405. *)
Definition answers405 (tk : Tick) : bool :=
  match outcome tk with
  | OnLoad r => status r =? 405
  | _ => false
  end.

(** Number of reports with status 405 among the reports to the call. *)
Definition answered405 (turns : list Turn) : nat :=
  length (List.filter (fun t => answers405 (report t)) turns).

(** No proxied request of another call is answered with status 200
    while the call runs. *)
Definition noResetBeside (turns : list Turn) : Prop :=
  Forall (fun t => Forall (fun s => is200 s = false) (inFlight t) /\
                   Forall (fun s => is200 s = false) (beforeRetry t)) turns.

(** Reports still needed to settle the call if no report leads to a GET
    reissue: one per attempt slot left, and one for the direct request. *)
Definition reportsLeft (c : Call) : nat :=
  match phase c with
  | Awaiting (ViaProxy _ _) | Awaiting (GetReissue _ _) =>
      (MAX_PROXY_RETRIES + 2 - attempt c)%nat
  | Awaiting _ => 1%nat
  | Settled _ => 0%nat
  end.

(** What holds of the closure state of a call between two reports,
    whatever the module state. *)
Definition slotInvariant (options : Options) (c : Call) : Prop :=
  (isPost options = false -> reissueCount c = 0%nat) /\
  (proxiedCount c <= MAX_PROXY_RETRIES + reissueCount c)%nat /\
  (attempt c <= S MAX_PROXY_RETRIES)%nat /\
  match phase c with
  | Awaiting (ViaProxy _ _) | Awaiting (GetReissue _ _) =>
      directCount c = 0%nat /\
      proxiedCount c = (attempt c + reissueCount c)%nat /\
      (1 <= attempt c <= MAX_PROXY_RETRIES)%nat
  | Awaiting _ => directIsLast (dispatched c)
  | Settled _ => directCount c = 0%nat \/ directIsLast (dispatched c)
  end.



(** * Properties *)

(** ** Endpoint model *)

Lemma split_nonempty sep s : split sep s <> [].
Proof.
  destruct s as [|c s]; simpl; [discriminate|].
  destruct (Ascii.eqb c sep); [discriminate|].
  destruct (split sep s); discriminate.
Qed.

(** Joining the fields with the separator gives the string back. *)
Lemma split_concat s : String.concat ":" (split ":" s) = s.
Proof.
  induction s as [|c s IH]; [reflexivity|].
  simpl. pose proof (split_nonempty ":" s) as Hne.
  destruct (split ":" s) as [|p ps] eqn:E; [congruence|].
  destruct (Ascii.eqb_spec c ":") as [->|Hc].
  - cbn [String.concat]. cbn [String.concat] in IH. rewrite IH. reflexivity.
  - cbn [String.concat] in *. destruct ps; simpl in *; subst; reflexivity.
Qed.

Lemma split_fields_noColon s : Forall (fun f => noColon f = true) (split ":" s).
Proof.
  induction s as [|c s IH]; simpl; [repeat constructor|].
  destruct (Ascii.eqb c ":") eqn:Ec.
  - constructor; [reflexivity|exact IH].
  - destruct (split ":" s) as [|p ps]; [repeat constructor; simpl; rewrite Ec; reflexivity|].
    inversion IH; subst. constructor; [simpl; rewrite Ec; simpl; assumption|assumption].
Qed.

Lemma split_noColon s : noColon s = true -> split ":" s = [s].
Proof.
  induction s as [|c s IH]; simpl; [reflexivity|].
  intros [Hc Hs]%andb_prop. apply negb_true_iff in Hc. rewrite Hc, (IH Hs). reflexivity.
Qed.

Lemma split_app a t : noColon a = true -> split ":" (a ++ ":" ++ t) = a :: split ":" t.
Proof.
  induction a as [|c a IH]; simpl; [reflexivity|].
  intros [Hc Ha]%andb_prop. apply negb_true_iff in Hc. rewrite Hc, (IH Ha). reflexivity.
Qed.

Lemma append_cancel_l (a x y : string) : a ++ x = a ++ y -> x = y.
Proof. induction a; simpl; intros H; [exact H|]. injection H. auto. Qed.

(** [parseProxy] accepts exactly the strings with two or four fields. *)
Lemma parseProxy_accepts s :
  (exists p, parseProxy s = Normal p) <->
  (length (split ":" s) = 2 \/ length (split ":" s) = 4)%nat.
Proof.
  unfold parseProxy.
  destruct (split ":" s) as [|a [|b [|c [|d [|e l]]]]]; simpl; split;
    try (intros [p Hp]; discriminate); try (intros [H|H]; discriminate);
    eauto.
Qed.

Lemma parseProxy_rejects s :
  length (split ":" s) <> 2%nat -> length (split ":" s) <> 4%nat ->
  parseProxy s = Throw (invalidFormat s).
Proof.
  unfold parseProxy.
  destruct (split ":" s) as [|a [|b [|c [|d [|e l]]]]]; simpl; intros; congruence.
Qed.

(** The key of a parsed endpoint re-parses to the same key. *)
Lemma parseProxy_key s p :
  parseProxy s = Normal p ->
  exists q, parseProxy (proxy p) = Normal q /\ proxy q = proxy p /\
            host q = host p /\ port q = port p /\
            username q = None /\ password q = None.
Proof.
  unfold parseProxy. pose proof (split_fields_noColon s) as Hf.
  destruct (split ":" s) as [|a [|b [|c [|d [|e l]]]]]; try discriminate;
    intros [= <-]; cbn [proxy host port];
    inversion Hf as [|? ? Ha Hf1]; subst; inversion Hf1 as [|? ? Hb Hf2]; subst;
    rewrite (split_app a b Ha), (split_noColon b Hb); eauto 10.
Qed.

(** C5 (counterexample).  Two accepted strings that do not survive the
    round trip: a port written with a leading zero comes back under another
    key, and a user name with an empty password is not written at all. *)
Lemma serialize_parse_counterexample :
  (exists p q, parseProxy "10.0.0.1:08080" = Normal p /\
               parseProxy (proxyToString p) = Normal q /\
               proxy p = "10.0.0.1:08080" /\ proxy q = "10.0.0.1:8080") /\
  (exists p q, parseProxy "10.0.0.1:8080:alice:" = Normal p /\
               parseProxy (proxyToString p) = Normal q /\
               username p = Some "alice" /\ username q = None).
Proof. split; eexists; eexists; repeat split; reflexivity. Qed.

(** A port beyond 2^53 is read as the nearest double and written back
    as that double, in exponent notation when it is large enough: such a
    port field is not the rendering of the number it parses to. *)
Lemma large_port_not_canonical :
  numberToString (parseInt "9007199254740993") = "9007199254740992" /\
  numberToString (parseInt "100000000000000000000000") = "1e+23" /\
  (forall p, parseProxy "10.0.0.1:9007199254740993" = Normal p ->
             proxyToString p = "10.0.0.1:9007199254740992" /\
             proxy p <> host p ++ ":" ++ numberToString (port p)).
Proof.
  split; [by vm_compute|]. split; [by vm_compute|].
  intros p [= <-]. split; [by vm_compute|]. vm_compute. discriminate.
Qed.

(** C5 (amended).  For an accepted string whose port field is the decimal
    rendering of the number it parses to, re-parsing the serialized
    endpoint gives the same key; if moreover the credentials are absent
    or both non-empty, the serialized endpoint is the string itself, so
    re-parsing gives the same endpoint. *)
Theorem serialize_parse_roundtrip s p :
  parseProxy s = Normal p ->
  proxy p = host p ++ ":" ++ numberToString (port p) ->
  (exists q, parseProxy (proxyToString p) = Normal q /\ proxy q = proxy p) /\
  (username p = None \/ truthy (username p) && truthy (password p) = true ->
   proxyToString p = s /\ parseProxy (proxyToString p) = Normal p).
Proof.
  intros Hp Hkey.
  assert (Hfull : username p = None \/ truthy (username p) && truthy (password p) = true ->
                  proxyToString p = s).
  { pose proof (split_concat s) as Hs. revert Hp Hkey Hs. unfold parseProxy, proxyToString.
    destruct (split ":" s) as [|a [|b [|c [|d [|e l]]]]]; try discriminate;
      intros [= <-]; cbn [proxy host port username password truthy default andb];
      intros Hk%append_cancel_l%append_cancel_l Hs Hc; cbn [String.concat] in Hs.
    - rewrite <- Hk. exact Hs.
    - destruct Hc as [Hc|Hc]; [discriminate|]. rewrite Hc, <- Hk. exact Hs. }
  split.
  - destruct (truthy (username p) && truthy (password p)) eqn:Ht.
    + rewrite (Hfull (or_intror eq_refl)). eauto.
    + unfold proxyToString. rewrite Ht, <- Hkey.
      destruct (parseProxy_key s p Hp) as (q & Hq & Hk & _). eauto.
  - intros Hc. split; [auto|]. rewrite (Hfull Hc). exact Hp.
Qed.

Lemma serialize_parse_roundtrip_witness :
  proxyToString (mkProxy "10.0.0.3" (Num 3128) (Some "alice") (Some "secret") "10.0.0.3:3128")
  = "10.0.0.3:3128:alice:secret".
Proof.
  apply (serialize_parse_roundtrip "10.0.0.3:3128:alice:secret"
           (mkProxy "10.0.0.3" (Num 3128) (Some "alice") (Some "secret") "10.0.0.3:3128")).
  - reflexivity.
  - reflexivity.
  - right. reflexivity.
Defined.

(** ** Pool store *)

(** Every built-in entry parses. *)
Lemma defaultPool_parses : mapM parseProxy DEFAULT_PROXY_LIST = Normal defaultPool.
Proof. reflexivity. Qed.

Lemma defaultPool_length : length defaultPool = 18%nat.
Proof. reflexivity. Qed.

(** The map over the stored array throws as soon as one element does. *)
Lemma mapM_throws {A B} (f : A -> completion B) (l : list A) x m :
  In x l -> f x = Throw m -> exists m', mapM f l = Throw m'.
Proof.
  induction l as [|y l IH]; simpl; [tauto|].
  intros [->|Hin] Hx.
  - rewrite Hx. simpl. eauto.
  - destruct (f y); simpl; [|eauto].
    destruct (IH Hin Hx) as [m' ->]. simpl. eauto.
Qed.

Lemma mapM_normal {A B} (f : A -> completion B) (l : list A) :
  (forall x, In x l -> exists y, f x = Normal y) ->
  exists ys, mapM f l = Normal ys /\ length ys = length l.
Proof.
  induction l as [|x l IH]; simpl; intros H; [exists []; auto|].
  destruct (H x (or_introl eq_refl)) as [y ->].
  destruct IH as (ys & -> & Hlen); [auto|].
  simpl. exists (y :: ys). simpl. auto.
Qed.

(** C4 (counterexample).  With a three-field entry between two well-formed
    ones, the restored pool is the built-in default list, not the two
    well-formed stored entries. *)
Lemma loadProxyList_drops_all_counterexample :
  map proxy (restoreDroppingMalformed
               [JString "10.0.0.1:8080"; JString "10.0.0.2:8080:user";
                JString "10.0.0.3:3128:alice:secret"])
    = ["10.0.0.1:8080"; "10.0.0.3:3128"] /\
  proxyList (loadProxyList worldWithBadEntry) = defaultPool /\
  map proxy (proxyList (loadProxyList worldWithBadEntry))
    <> ["10.0.0.1:8080"; "10.0.0.3:3128"].
Proof. repeat split. discriminate. Qed.

(** C4 (amended).  When the stored array has an entry that does not parse,
    the load keeps none of the stored entries: the pool becomes the
    built-in default list and storage is left as it was.  When every
    entry parses, the pool is exactly the parsed stored entries. *)
Theorem loadProxyList_malformed_entry (w : World) (elems : list JsonElem) :
  storedList (localStorage w) = Some (LArray elems) ->
  ((exists e m, In e elems /\ parseStored e = Throw m) ->
   loadProxyList w = setProxyList defaultPool w) /\
  (elems <> [] -> (forall e, In e elems -> exists p, parseStored e = Normal p) ->
   exists l, mapM parseStored elems = Normal l /\ loadProxyList w = setProxyList l w).
Proof.
  intros Hst. unfold loadProxyList, loadProxyList_try. rewrite Hst. split.
  - intros (e & m & Hin & Hthrow).
    destruct (mapM_throws parseStored elems e m Hin Hthrow) as [m' Hm].
    destruct elems as [|e0 elems]; [destruct Hin|].
    cbn [length Nat.ltb Nat.leb]. rewrite Hm. reflexivity.
  - intros Hne Hall. destruct (mapM_normal parseStored elems Hall) as (l & Hl & _).
    exists l. split; [exact Hl|].
    destruct elems as [|e0 elems]; [congruence|].
    cbn [length Nat.ltb Nat.leb]. rewrite Hl. reflexivity.
Qed.

Lemma loadProxyList_malformed_entry_witness :
  loadProxyList worldWithBadEntry = setProxyList defaultPool worldWithBadEntry.
Proof.
  apply (loadProxyList_malformed_entry worldWithBadEntry
           [JString "10.0.0.1:8080"; JString "10.0.0.2:8080:user";
            JString "10.0.0.3:3128:alice:secret"]).
  - reflexivity.
  - exists (JString "10.0.0.2:8080:user"), (invalidFormat "10.0.0.2:8080:user").
    split; [right; left; reflexivity | reflexivity].
Defined.

(** C10.  A string whose field count is neither two nor four makes
    [parseProxy] throw; [addProxy] catches it, returns [false] and leaves
    the pool, the statistics and storage as they were. *)
Theorem addProxy_malformed (s : string) (w : World) :
  length (split ":" s) <> 2%nat -> length (split ":" s) <> 4%nat ->
  parseProxy s = Throw (invalidFormat s) /\ addProxy s w = (false, w).
Proof.
  intros H2 H4. pose proof (parseProxy_rejects s H2 H4) as Hp.
  split; [exact Hp|]. unfold addProxy. rewrite Hp. reflexivity.
Qed.

Lemma addProxy_malformed_witness :
  parseProxy "10.0.0.2:8080:user" = Throw (invalidFormat "10.0.0.2:8080:user") /\
  addProxy "10.0.0.2:8080:user" worldWithBadEntry = (false, worldWithBadEntry).
Proof.
  apply (addProxy_malformed "10.0.0.2:8080:user" worldWithBadEntry);
    simpl; lia.
Defined.

(** ** Health tracker *)

(** [roundDiv a b] is the integer nearest to [a / b], halves rounded up. *)
Lemma roundDiv_nearest a b :
  0 < b -> 2 * a - b < 2 * b * roundDiv a b <= 2 * a + b.
Proof.
  intros Hb. unfold roundDiv.
  pose proof (Z.div_mod (2 * a + b) (2 * b) ltac:(lia)) as Hdm.
  pose proof (Z.mod_pos_bound (2 * a + b) (2 * b) ltac:(lia)) as Hm.
  lia.
Qed.

Lemma roundDiv_exact q b : 0 < b -> roundDiv (q * b) b = q.
Proof.
  intros Hb. unfold roundDiv.
  symmetry. apply (Z.div_unique_pos _ _ q b); lia.
Qed.

Lemma updateProxyStats_lookup k success rt blocked tU tB w k' :
  k' <> k ->
  proxyStats (updateProxyStats k success rt blocked tU tB w) !! k' = proxyStats w !! k'.
Proof. intros Hne. unfold updateProxyStats. cbn. by rewrite lookup_insert_ne. Qed.

Lemma updateProxyStats_avg k success rt blocked tU tB w :
  (forall j s, proxyStats w !! j = Some s -> avgInvariant s) ->
  forall j s, proxyStats (updateProxyStats k success rt blocked tU tB w) !! j = Some s ->
              avgInvariant s.
Proof.
  intros Hinv j s. destruct (decide (j = k)) as [->|Hne].
  - unfold updateProxyStats. cbn. rewrite lookup_insert_eq. intros [= <-].
    assert (H0 : avgInvariant (default freshStats (proxyStats w !! k))).
    { destruct (proxyStats w !! k) as [s0|] eqn:E; cbn; [eauto|].
      unfold avgInvariant; cbn. lia. }
    destruct H0 as (Hnn & Hpos & Hzero).
    destruct success; unfold avgInvariant; cbn; [|auto].
    split; [lia|]. split; [reflexivity|lia].
  - rewrite updateProxyStats_lookup by done. apply Hinv.
Qed.

(** C7 (counterexample).  After successes of 1 ms and 2 ms the stored
    average is 2, which is neither the exact quotient 3/2 nor its
    truncation. *)
Lemma average_not_quotient_counterexample :
  exists s,
    proxyStats (fold_left applyStatsCall
                  [mkStatsCall "10.0.0.1:8080" true 1 false 1000 1000;
                   mkStatsCall "10.0.0.1:8080" true 2 false 2000 2000]
                  (initialWorld true)) !! "10.0.0.1:8080" = Some s /\
    successfulRequests s = 2 /\ totalResponseTime s = 3 /\ avgResponseTime s = 2 /\
    ~ (inject_Z (avgResponseTime s)
       == inject_Z (totalResponseTime s) / inject_Z (successfulRequests s))%Q /\
    avgResponseTime s <> totalResponseTime s / successfulRequests s.
Proof.
  eexists. split; [reflexivity|]. cbn. repeat split; try discriminate.
Qed.

(** C7 (amended).  After every sequence of [updateProxyStats] calls, for
    every key, the stored average is the quotient of the latency sum by
    the success count rounded to the nearest integer (halves up) when
    there is a success, and zero when there is none. *)
Theorem average_is_rounded_quotient (calls : list StatsCall) (w : World) :
  (forall k s, proxyStats w !! k = Some s -> avgInvariant s) ->
  forall k s, proxyStats (fold_left applyStatsCall calls w) !! k = Some s ->
    (0 < successfulRequests s ->
     avgResponseTime s = roundDiv (totalResponseTime s) (successfulRequests s)) /\
    (successfulRequests s = 0 -> avgResponseTime s = 0).
Proof.
  intros Hw k s Hs.
  enough (Hall : forall j t, proxyStats (fold_left applyStatsCall calls w) !! j = Some t ->
                             avgInvariant t) by (apply (Hall k s Hs)).
  clear k s Hs. revert w Hw.
  induction calls as [|c calls IH]; intros w Hw; cbn [fold_left]; [exact Hw|].
  apply IH. unfold applyStatsCall. apply updateProxyStats_avg. exact Hw.
Qed.

Lemma average_is_rounded_quotient_witness :
  (0 < successfulRequests statsAfterTwoSuccesses ->
   avgResponseTime statsAfterTwoSuccesses
   = roundDiv (totalResponseTime statsAfterTwoSuccesses)
              (successfulRequests statsAfterTwoSuccesses)) /\
  (successfulRequests statsAfterTwoSuccesses = 0 ->
   avgResponseTime statsAfterTwoSuccesses = 0).
Proof.
  apply (average_is_rounded_quotient
           [mkStatsCall "10.0.0.1:8080" true 1 false 1000 1000;
            mkStatsCall "10.0.0.1:8080" true 2 false 2000 2000]
           (initialWorld true)) with (k := "10.0.0.1:8080").
  - intros k s H. simpl in H. rewrite lookup_empty in H. discriminate H.
  - reflexivity.
Defined.

(** ** Weighted selector *)

Section Rationals.
Local Open Scope Q_scope.

(** Both block penalties under the floor: the lighter one gives at least
    the weight of the heavier one, and more exactly when it ends above
    the floor. *)
Lemma floored_penalties (x B : Q) :
  0 < B ->
  Qmax (x / (B * 10)) (1 # 100) <= Qmax (x / (B * 2)) (1 # 100) /\
  (Qmax (x / (B * 10)) (1 # 100) < Qmax (x / (B * 2)) (1 # 100) <->
   (1 # 100) < Qmax (x / (B * 2)) (1 # 100)).
Proof.
  intros HB.
  assert (E10 : x / (B * 10) == (x / B) * (1 # 10)) by (field; lra).
  assert (E2 : x / (B * 2) == (x / B) * (1 # 2)) by (field; lra).
  rewrite E10, E2. generalize (x / B). intros y.
  destruct (Q.max_spec (y * (1 # 10)) (1 # 100)) as [[H1 ->]|[H1 ->]];
    destruct (Q.max_spec (y * (1 # 2)) (1 # 100)) as [[H2 ->]|[H2 ->]];
    split; try split; intros; lra.
Qed.

(** One block on top of four more failures and requests costs at least
    a factor of ten before the floor. *)
Lemma penalty_tenfold (S T F : Q) :
  0 <= S -> 0 < T -> 0 <= F ->
  (S / (T + 4) * 10) / ((F + 4) * 2) / (1 * 10)
    <= (if Qlt_le_dec 0 F then (S / T * 10) / (F * 2) else S / T * 10) / 10.
Proof.
  intros HS HT HF.
  assert (E1 : (S / (T + 4) * 10) / ((F + 4) * 2) / (1 * 10)
               == S / ((T + 4) * (F + 4) * 2)) by (field; split; lra).
  rewrite E1. clear E1.
  destruct (Qlt_le_dec 0 F) as [HF'|HF'].
  - assert (E2 : (S / T * 10) / (F * 2) / 10 == S / (T * F * 2)) by (field; split; lra).
    rewrite E2. apply Qle_shift_div_l; [nra|].
    assert (E3 : S / ((T + 4) * (F + 4) * 2) * (T * F * 2)
                 == S * ((T * F) / ((T + 4) * (F + 4)))) by (field; split; lra).
    rewrite E3.
    assert (T * F / ((T + 4) * (F + 4)) <= 1) by (apply Qle_shift_div_r; nra).
    nra.
  - assert (E2 : S / T * 10 / 10 == S / T) by (field; lra).
    rewrite E2. apply Qle_shift_div_l; [lra|].
    assert (E3 : S / ((T + 4) * (F + 4) * 2) * T
                 == S * (T / ((T + 4) * (F + 4) * 2))) by (field; split; lra).
    rewrite E3.
    assert (T / ((T + 4) * (F + 4) * 2) <= 1) by (apply Qle_shift_div_r; nra).
    nra.
Qed.

Lemma inject_Z_pos z : (0 < z)%Z -> 0 < inject_Z z.
Proof. intros H. rewrite (Zlt_Qlt 0 z) in H. exact H. Qed.

Lemma inject_Z_nonneg z : (0 <= z)%Z -> 0 <= inject_Z z.
Proof. intros H. rewrite (Zle_Qle 0 z) in H. exact H. Qed.

End Rationals.

(** C8 (counterexample).  An endpoint marked blocked before it ever
    succeeded sits on the 0.01 floor inside the cooldown and after it: its
    weight does not increase at the boundary. *)
Lemma cooldown_no_increase_counterexample :
  let s := {| totalRequests := 4; successfulRequests := 0; totalResponseTime := 0;
              lastUsed := 1000; failures := 4; avgResponseTime := 0;
              blockedCount := 1; lastBlocked := 1000 |} in
  proxyStats (markProxyAsBlocked "10.0.0.1:8080" 1000 1000 1000 1000 1000
                (initialWorld true)) !! "10.0.0.1:8080" = Some s /\
  (1000 + blockCooldown - 1) - lastBlocked s < blockCooldown /\
  blockCooldown <= (1000 + blockCooldown) - lastBlocked s /\
  ~ (weightOf (Some s) (1000 + blockCooldown - 1)
     < weightOf (Some s) (1000 + blockCooldown))%Q.
Proof.
  cbn zeta. split; [reflexivity|]. split; [reflexivity|]. split; [discriminate|].
  vm_compute. discriminate.
Qed.

(** C8 (amended).  For an endpoint with [blockedCount > 0], the weight
    at or after the one-hour boundary is never below the weight inside the
    cooldown, and it is strictly greater exactly when the endpoint has
    recorded requests and its weight after the boundary is above the 0.01
    floor. *)
Theorem cooldown_weight_increase (s : ProxyStats) (nowIn nowOut : Z) :
  0 < blockedCount s ->
  nowIn - lastBlocked s < blockCooldown ->
  blockCooldown <= nowOut - lastBlocked s ->
  (weightOf (Some s) nowIn <= weightOf (Some s) nowOut)%Q /\
  ((weightOf (Some s) nowIn < weightOf (Some s) nowOut)%Q <->
   0 < totalRequests s /\ (1 # 100 < weightOf (Some s) nowOut)%Q).
Proof.
  intros Hb Hin Hout. unfold weightOf, rawWeight.
  apply Z.ltb_lt in Hb as Hb'. apply Z.ltb_lt in Hin. apply Z.ltb_ge in Hout.
  rewrite Hb', Hin, Hout.
  destruct (0 <? totalRequests s) eqn:Ht.
  - apply Z.ltb_lt in Ht.
    set (w1 := if 0 <? failures s then _ else _).
    rewrite !inject_Z_mult.
    destruct (floored_penalties w1 (inject_Z (blockedCount s)) (inject_Z_pos _ Hb))
      as [Hle Hiff].
    split; [exact Hle|]. rewrite Hiff. tauto.
  - apply Z.ltb_ge in Ht. split; [apply Qle_refl|].
    split; [intros H; exfalso; revert H; apply Qlt_irrefl | intros [H _]; lia].
Qed.

Lemma cooldown_weight_increase_witness :
  (weightOf (Some statsBlockedOnce) 2000
   <= weightOf (Some statsBlockedOnce) (1000 + blockCooldown))%Q.
Proof.
  apply (cooldown_weight_increase statsBlockedOnce 2000 (1000 + blockCooldown));
    vm_compute; first [reflexivity | discriminate].
Defined.

Lemma updateProxyStats_failure_lookup k rt blocked tU tB w :
  proxyStats (updateProxyStats k false rt blocked tU tB w) !! k =
  let s0 := default freshStats (proxyStats w !! k) in
  Some {| totalRequests := totalRequests s0 + 1;
          successfulRequests := successfulRequests s0;
          totalResponseTime := totalResponseTime s0; lastUsed := tU;
          failures := failures s0 + 1; avgResponseTime := avgResponseTime s0;
          blockedCount := if blocked then blockedCount s0 + 1 else blockedCount s0;
          lastBlocked := if blocked then tB else lastBlocked s0 |}.
Proof. unfold updateProxyStats. cbn. by rewrite lookup_insert_eq. Qed.

Lemma markProxyAsBlocked_lookup k tUsed tBlocked t1 t2 t3 w :
  proxyStats (markProxyAsBlocked k tUsed tBlocked t1 t2 t3 w) !! k =
  let s0 := default freshStats (proxyStats w !! k) in
  Some {| totalRequests := totalRequests s0 + 4;
          successfulRequests := successfulRequests s0;
          totalResponseTime := totalResponseTime s0; lastUsed := t3;
          failures := failures s0 + 4; avgResponseTime := avgResponseTime s0;
          blockedCount := blockedCount s0 + 1;
          lastBlocked := tBlocked |}.
Proof.
  unfold markProxyAsBlocked. cbn [fold_left].
  rewrite !updateProxyStats_failure_lookup. cbn. do 2 f_equal; lia.
Qed.

Section BlockPenalty.
Local Open Scope Q_scope.

Lemma penalty_tenfold_failures (S T F : Q) :
  0 <= S -> 0 < T -> 0 < F ->
  (S / (T + 4) * 10) / ((F + 4) * 2) / (1 * 10) <= (S / T * 10) / (F * 2) / 10.
Proof.
  intros HS HT HF. pose proof (penalty_tenfold S T F HS HT (Qlt_le_weak _ _ HF)) as H.
  destruct (Qlt_le_dec 0 F); [exact H|lra].
Qed.

Lemma penalty_tenfold_clean (S T F : Q) :
  0 <= S -> 0 < T -> F == 0 ->
  (S / (T + 4) * 10) / ((F + 4) * 2) / (1 * 10) <= (S / T * 10) / 10.
Proof.
  intros HS HT HF. assert (HF' : 0 <= F) by lra.
  pose proof (penalty_tenfold S T F HS HT HF') as H.
  destruct (Qlt_le_dec 0 F); [lra|exact H].
Qed.

Lemma zero_rate (a b c : Q) : (0 / a * 10) / b / c == 0.
Proof. unfold Qdiv. ring. Qed.

Lemma floor_of_tenth (X Y : Q) :
  X <= Y / 10 -> Qmax X (1 # 100) <= Qmax (Qmax Y (1 # 100) / 10) (1 # 100).
Proof.
  intros H. apply Q.max_le_compat_r.
  assert (E : forall z, z / 10 == z * (1 # 10)) by (intros; field).
  rewrite E in *. pose proof (Q.le_max_l Y (1 # 100)). lra.
Qed.

End BlockPenalty.

(** C6 (counterexample).  An endpoint with one failure and no success is
    already on the 0.01 floor; after [markProxyAsBlocked] it is still
    there, which is not one tenth of the weight before. *)
Lemma markProxyAsBlocked_weight_counterexample :
  let before := proxyStats worldOneFailure !! "10.0.0.1:8080" in
  let after := proxyStats (markProxyAsBlocked "10.0.0.1:8080" 2000 2000 2000 2000 2000
                             worldOneFailure) !! "10.0.0.1:8080" in
  (blockedCount <$> before) = Some 0 /\
  (blockedCount <$> after) = Some 1 /\
  2500 - 2000 < blockCooldown /\
  ~ (weightOf after 2500 <= weightOf before 2000 / 10)%Q.
Proof.
  cbn zeta. split; [reflexivity|]. split; [reflexivity|]. split; [reflexivity|].
  vm_compute. intros H. apply H. reflexivity.
Qed.

(** C6 (amended).  For a key whose statistics have [blockedCount = 0]
    (and counters in their natural ranges), [markProxyAsBlocked] leaves
    [blockedCount = 1], [failures] increased by exactly 4, [lastBlocked]
    at the clock reading of the blocking update, and, inside the
    cooldown, a weight that is at most one tenth of the weight before or
    else the 0.01 floor. *)
Theorem markProxyAsBlocked_effect (k : string) (tUsed tBlocked t1 t2 t3 : Z)
    (nowBefore now : Z) (w : World) :
  let s0 := default freshStats (proxyStats w !! k) in
  blockedCount s0 = 0 ->
  0 <= successfulRequests s0 <= totalRequests s0 ->
  0 <= failures s0 ->
  now - tBlocked < blockCooldown ->
  exists s1,
    proxyStats (markProxyAsBlocked k tUsed tBlocked t1 t2 t3 w) !! k = Some s1 /\
    blockedCount s1 = 1 /\
    failures s1 = failures s0 + 4 /\
    lastBlocked s1 = tBlocked /\
    (weightOf (Some s1) now
       <= Qmax (weightOf (proxyStats w !! k) nowBefore / 10) (1 # 100))%Q.
Proof.
  intros s0 Hb [Hs Hst] Hf Hnow.
  rewrite markProxyAsBlocked_lookup. fold s0. cbn zeta.
  eexists. split; [reflexivity|]. cbn [blockedCount failures lastBlocked].
  rewrite Hb. repeat split.
  unfold weightOf. apply floor_of_tenth.
  unfold rawWeight at 1.
  cbn [totalRequests successfulRequests failures blockedCount lastBlocked].
  assert (H1 : (0 <? totalRequests s0 + 4) = true) by (apply Z.ltb_lt; lia).
  assert (H2 : (0 <? failures s0 + 4) = true) by (apply Z.ltb_lt; lia).
  apply Z.ltb_lt in Hnow. rewrite H1, H2, Hnow.
  change (0 + 1) with 1. change (0 <? 1) with true. cbn match.
  rewrite !inject_Z_mult, !inject_Z_plus.
  change (inject_Z 4) with 4%Q; change (inject_Z 2) with 2%Q;
    change (inject_Z 1) with 1%Q; change (inject_Z 10) with 10%Q.
  pose proof (inject_Z_nonneg _ Hs) as HS.
  assert (Hraw : rawWeight (proxyStats w !! k) nowBefore =
                 if 0 <? totalRequests s0
                 then if 0 <? failures s0
                      then (inject_Z (successfulRequests s0) / inject_Z (totalRequests s0)
                            * 10 / (inject_Z (failures s0) * 2))%Q
                      else (inject_Z (successfulRequests s0) / inject_Z (totalRequests s0)
                            * 10)%Q
                 else 1%Q).
  { unfold rawWeight, s0 in *. destruct (proxyStats w !! k) as [s|]; cbn in *; [|reflexivity].
    rewrite Hb. cbn. rewrite inject_Z_mult. reflexivity. }
  rewrite Hraw. clear Hraw.
  destruct (0 <? totalRequests s0) eqn:Ht.
  - apply Z.ltb_lt in Ht. pose proof (inject_Z_pos _ Ht) as HT.
    destruct (0 <? failures s0) eqn:Hf0.
    + apply Z.ltb_lt in Hf0. apply penalty_tenfold_failures; auto using inject_Z_pos.
    + apply Z.ltb_ge in Hf0. apply penalty_tenfold_clean; auto.
      assert (failures s0 = 0) as -> by lia. reflexivity.
  - apply Z.ltb_ge in Ht.
    assert (successfulRequests s0 = 0) as -> by lia.
    change (inject_Z 0) with 0%Q. rewrite zero_rate. discriminate.
Qed.

Lemma markProxyAsBlocked_effect_witness :
  exists s1,
    proxyStats (markProxyAsBlocked "10.0.0.1:8080" 2000 2000 2001 2002 2003
                  worldOneFailure) !! "10.0.0.1:8080" = Some s1 /\
    blockedCount s1 = 1 /\
    failures s1 = failures (default freshStats (proxyStats worldOneFailure !! "10.0.0.1:8080")) + 4 /\
    lastBlocked s1 = 2000 /\
    (weightOf (Some s1) 2500
       <= Qmax (weightOf (proxyStats worldOneFailure !! "10.0.0.1:8080") 1500 / 10) (1 # 100))%Q.
Proof.
  apply (markProxyAsBlocked_effect "10.0.0.1:8080" 2000 2000 2001 2002 2003 1500 2500
           worldOneFailure); vm_compute; try reflexivity;
    try (split; discriminate); discriminate.
Defined.

(** ** Resilient executor *)

(** *** What selection leaves untouched *)

Lemma loadProxyList_frame w :
  http405Count (loadProxyList w) = http405Count w /\
  storedEnabled (localStorage (loadProxyList w)) = storedEnabled (localStorage w).
Proof.
  unfold loadProxyList, loadProxyList_try.
  destruct (storedList (localStorage w)) as [[| | |elems]|]; try (cbn; auto; fail).
  destruct (0 <? length elems)%nat; [|cbn; auto].
  destruct (mapM parseStored elems); cbn; auto.
Qed.

Lemma ensureProxyDataLoaded_frame w :
  http405Count (ensureProxyDataLoaded w) = http405Count w /\
  isProxyEnabled (ensureProxyDataLoaded w) = isProxyEnabled w.
Proof.
  unfold ensureProxyDataLoaded, isProxyEnabled.
  destruct (length (proxyList w) =? 0)%nat; [|auto].
  destruct (loadProxyList_frame w) as [Hc He].
  unfold loadProxyStats.
  destruct (storedStats (localStorage (loadProxyList w))) as [[| |m]|]; cbn;
    rewrite ?He; auto.
Qed.

Lemma selectRandomProxy_world excl now r1 r2 w :
  fst (selectRandomProxy excl now r1 r2 w) = ensureProxyDataLoaded w.
Proof.
  unfold selectRandomProxy.
  repeat match goal with
         | |- context [if ?b then _ else _] => destruct b
         | |- context [match ?x with Some _ => _ | None => _ end] => destruct x
         end; reflexivity.
Qed.

Lemma selectRandomProxy_frame excl now r1 r2 w w' sel :
  selectRandomProxy excl now r1 r2 w = (w', sel) ->
  http405Count w' = http405Count w /\ isProxyEnabled w' = isProxyEnabled w.
Proof.
  intros H. pose proof (selectRandomProxy_world excl now r1 r2 w) as Hw.
  rewrite H in Hw. cbn in Hw. subst w'. apply ensureProxyDataLoaded_frame.
Qed.

Lemma attemptRequest_frame options rd c :
  http405Count (world (attemptRequest options rd c)) = http405Count (world c) /\
  isProxyEnabled (world (attemptRequest options rd c)) = isProxyEnabled (world c).
Proof.
  unfold attemptRequest. cbn [attempt excludedProxies world dispatched].
  destruct (_ <? _)%nat; [cbn; auto|].
  destruct (selectRandomProxy _ _ _ _ _) as [w1 [q|]] eqn:Hsel;
    destruct (selectRandomProxy_frame _ _ _ _ _ _ _ Hsel); cbn; auto.
Qed.

(** A settled call ignores later reports. *)
Lemma deliver_settled options c tk s : phase c = Settled s -> deliver options c tk = c.
Proof. intros H. unfold deliver. rewrite H. reflexivity. Qed.

Lemma run_settled options ticks c s :
  phase c = Settled s -> fold_left (deliver options) ticks c = c.
Proof.
  induction ticks as [|tk ticks IH]; intros H; cbn; [reflexivity|].
  rewrite (deliver_settled _ _ _ _ H). auto.
Qed.

(** C1 (counterexample).  A proxied request answered with status 204 is
    not returned to the caller: the endpoint is charged a failure and
    excluded, and a second endpoint is tried. *)
Lemma status_204_not_success_counterexample :
  let c := runCall getOptions (readingsAt 1000)
             [tickAt (OnLoad (responseWith 204)) 1100] (initialWorld true) in
  phase c <> Settled (Resolved (responseWith 204)) /\
  attempt c = 2%nat /\
  excludedProxies c = ["38.154.227.167:5868"] /\
  length (dispatched c) = 2%nat /\
  (successfulRequests <$> proxyStats (world c) !! "38.154.227.167:5868") = Some 0 /\
  (failures <$> proxyStats (world c) !! "38.154.227.167:5868") = Some 1.
Proof. vm_compute. repeat split. discriminate. Qed.

(** What one run of [attemptRequest] does to the call: it takes the next
    attempt number and makes one transport call, the exhaustion fallback
    when every slot is used. *)
Lemma attemptRequest_step options rd c :
  let c' := attemptRequest options rd c in
  attempt c' = S (attempt c) /\
  excludedProxies c' = excludedProxies c /\
  (exists f req, dispatched c' = (dispatched c ++ [(f, req)])%list /\ phase c' = Awaiting f) /\
  ((MAX_PROXY_RETRIES <= attempt c)%nat ->
   phase c' = Awaiting DirectExhausted /\ world c' = world c) /\
  ((attempt c < MAX_PROXY_RETRIES)%nat ->
   phase c' = Awaiting DirectNoProxy \/
   exists q, phase c' = Awaiting (ViaProxy q (tStart rd))).
Proof.
  unfold attemptRequest. cbn [attempt excludedProxies world dispatched].
  destruct (MAX_PROXY_RETRIES <? S (attempt c))%nat eqn:Hmax.
  - apply Nat.ltb_lt in Hmax. cbn. repeat split; eauto. intros. lia.
  - apply Nat.ltb_ge in Hmax.
    destruct (selectRandomProxy _ _ _ _ _) as [w1 [q|]]; cbn;
      repeat split; eauto; intros; lia.
Qed.

(** A report is handled as [deliver] has it, the [attemptRequest] of an
    armed timer included. *)
Lemma deliver_armsRetry options c tk :
  deliver options c tk
  = match armsRetry options c tk with
    | Some c1 => attemptRequest options (next tk) c1
    | None => deliver options c tk
    end.
Proof.
  unfold armsRetry, deliver.
  destruct (phase c) as [[]|]; try reflexivity; destruct (outcome tk); try reflexivity;
    unfold onload, onloadArms, failAndRetry, recordFailure;
    repeat match goal with
           | |- context [if ?b then _ else _] =>
               match type of b with bool => destruct b end
           end; reflexivity.
Qed.

Lemma withWorld_same c : withWorld c (world c) = c.
Proof. by destruct c. Qed.

Lemma deliverAmong_alone options c tk : deliverAmong options c (alone tk) = deliver options c tk.
Proof.
  unfold deliverAmong. cbn [alone inFlight report beforeRetry fold_left].
  rewrite withWorld_same, (deliver_armsRetry options c tk).
  destruct (armsRetry options c tk) as [c1|]; [|reflexivity].
  by rewrite withWorld_same.
Qed.

(** What the handler leaves when it arms the retry timer. *)
Lemma armsRetry_spec options c tk c1 :
  armsRetry options c tk = Some c1 ->
  exists p start,
    (phase c = Awaiting (ViaProxy p start) \/ phase c = Awaiting (GetReissue p start)) /\
    phase c1 = phase c /\ attempt c1 = attempt c /\ dispatched c1 = dispatched c /\
    excludedProxies c1 = (excludedProxies c ++ [proxy p])%list /\
    (http405Count (world c) <= http405Count (world c1))%nat.
Proof.
  unfold armsRetry.
  destruct (phase c) as [[p start|p start| | | |]|] eqn:Hf; try discriminate;
    destruct (outcome tk); try discriminate;
    unfold onloadArms, recordFailure;
    repeat match goal with
           | |- context [if ?b then _ else _] =>
               match type of b with bool => destruct b end
           end; try discriminate;
    intros [= <-]; exists p, start; cbn; rewrite ?Hf; repeat split; auto.
Qed.

(** A settled call makes no transport call and keeps its settlement,
    whatever is reported later and whatever other calls do. *)
Lemma runAmong_settled options turns c s :
  phase c = Settled s ->
  phase (fold_left (deliverAmong options) turns c) = Settled s /\
  dispatched (fold_left (deliverAmong options) turns c) = dispatched c /\
  attempt (fold_left (deliverAmong options) turns c) = attempt c.
Proof.
  revert c. induction turns as [|t turns IH]; intros c H; cbn [fold_left]; [auto|].
  assert (Hstep : deliverAmong options c t
                  = withWorld c (fold_left deliverShared (inFlight t) (world c))).
  { unfold deliverAmong, armsRetry. cbn [withWorld phase]. rewrite H.
    apply (deliver_settled _ _ _ s). exact H. }
  rewrite Hstep.
  destruct (IH (withWorld c (fold_left deliverShared (inFlight t) (world c))) H)
    as (Hp & Hd & Ha). auto.
Qed.

(** C1 (amended).  A proxied request (first issue or GET reissue) is
    answered, other calls running beside the call.  With status exactly
    200 the handler sets the 405 streak to 0, records a success with
    latency [Date.now() - requestStart] for the selected endpoint,
    resolves the promise with that response, and the call makes no
    further transport call, whatever is reported later and whatever other
    calls do.  With any other status except 405 (the other 2xx codes
    included) the handler records a failure of the endpoint with that
    latency, leaves the streak and the flag as they are, excludes the
    endpoint and arms the timer that runs [attemptRequest] again: the
    call takes the next attempt number and makes one more transport call,
    through another selection while a slot is left, the direct fallback
    otherwise. *)
Theorem proxied_answer_handling (options : Options) (c : Call) (t : Turn)
    (p : Proxy) (start : Z) (r : Response) :
  phase c = Awaiting (ViaProxy p start) \/ phase c = Awaiting (GetReissue p start) ->
  outcome (report t) = OnLoad r ->
  let tk := report t in
  let w0 := fold_left deliverShared (inFlight t) (world c) in
  let c' := deliverAmong options c t in
  let s0 := default freshStats (proxyStats w0 !! proxy p) in
  let latency := tDone tk - start in
  (status r = 200 ->
   phase c' = Settled (Resolved r) /\
   http405Count (world c') = 0%nat /\
   world c' = updateProxyStats (proxy p) true latency false (tUsed tk) (tUsed tk)
                (setHttp405Count 0 w0) /\
   (exists s1, proxyStats (world c') !! proxy p = Some s1 /\
               successfulRequests s1 = successfulRequests s0 + 1 /\
               totalRequests s1 = totalRequests s0 + 1 /\
               totalResponseTime s1 = totalResponseTime s0 + latency) /\
   dispatched c' = dispatched c /\
   (forall later,
      phase (fold_left (deliverAmong options) later c') = Settled (Resolved r) /\
      dispatched (fold_left (deliverAmong options) later c') = dispatched c)) /\
  (status r <> 200 -> status r <> 405 ->
   let w1 := updateProxyStats (proxy p) false latency false (tUsed tk) (tUsed tk) w0 in
   let w2 := fold_left deliverShared (beforeRetry t) w1 in
   c' = attemptRequest options (next tk)
          {| phase := phase c; attempt := attempt c;
             excludedProxies := (excludedProxies c ++ [proxy p])%list;
             dispatched := dispatched c; world := w2 |} /\
   (exists s1, proxyStats w1 !! proxy p = Some s1 /\
               failures s1 = failures s0 + 1 /\
               totalRequests s1 = totalRequests s0 + 1 /\
               successfulRequests s1 = successfulRequests s0 /\
               totalResponseTime s1 = totalResponseTime s0) /\
   http405Count w1 = http405Count w0 /\
   isProxyEnabled w1 = isProxyEnabled w0 /\
   http405Count (world c') = http405Count w2 /\
   attempt c' = S (attempt c) /\
   excludedProxies c' = (excludedProxies c ++ [proxy p])%list /\
   (exists f req, dispatched c' = (dispatched c ++ [(f, req)])%list /\
                  phase c' = Awaiting f) /\
   ((MAX_PROXY_RETRIES <= attempt c)%nat -> phase c' = Awaiting DirectExhausted) /\
   ((attempt c < MAX_PROXY_RETRIES)%nat ->
    phase c' = Awaiting DirectNoProxy \/
    exists q, phase c' = Awaiting (ViaProxy q (tStart (next tk))))).
Proof.
  intros Hph Hout tk w0 c' s0 latency. change (outcome tk = OnLoad r) in Hout.
  set (c0 := withWorld c w0).
  assert (Hph0 : phase c0 = Awaiting (ViaProxy p start) \/
                 phase c0 = Awaiting (GetReissue p start)) by exact Hph.
  split.
  - intros Hst.
    assert (Hc' : c' = settle (Resolved r) c0
                    (updateProxyStats (proxy p) true latency false
                       (tUsed tk) (tUsed tk) (setHttp405Count 0 w0))).
    { unfold c', deliverAmong. fold w0. fold c0. unfold armsRetry, deliver.
      fold tk. destruct Hph0 as [-> | ->]; rewrite Hout; unfold onloadArms, onload;
        rewrite Hst; reflexivity. }
    rewrite Hc'. cbn [settle phase world dispatched c0 withWorld].
    split; [reflexivity|]. split; [reflexivity|]. split; [reflexivity|].
    split; [|split; [reflexivity|]].
    + unfold updateProxyStats. cbn. rewrite lookup_insert_eq. eexists.
      split; [reflexivity|]. cbn. auto.
    + intros later.
      match goal with
      | |- context [fold_left _ later ?c1] =>
          destruct (runAmong_settled options later c1 (Resolved r) eq_refl) as (H1 & H2 & _)
      end.
      split; [exact H1|exact H2].
  - intros Hn200 Hn405 w1 w2.
    set (c2 := {| phase := phase c; attempt := attempt c;
                  excludedProxies := (excludedProxies c ++ [proxy p])%list;
                  dispatched := dispatched c; world := w2 |}).
    assert (Hc' : c' = attemptRequest options (next tk) c2).
    { unfold c', deliverAmong. fold w0. fold c0. unfold armsRetry. fold tk.
      destruct Hph0 as [-> | ->]; rewrite Hout; unfold onloadArms;
        apply Z.eqb_neq in Hn200; apply Z.eqb_neq in Hn405;
        rewrite Hn200, Hn405; reflexivity. }
    destruct (attemptRequest_step options (next tk) c2) as (Ha & He & Hd & Hmax & Hslot).
    destruct (attemptRequest_frame options (next tk) c2) as [Hcount Hflag].
    rewrite <- Hc' in *. cbn [attempt excludedProxies dispatched world c2] in *.
    split; [reflexivity|]. split.
    { unfold w1, updateProxyStats. cbn. rewrite lookup_insert_eq. eexists.
      split; [reflexivity|]. cbn. auto. }
    repeat split; auto.
    intros Hm. apply Hmax. exact Hm.
Qed.

(** Status 204 at the first of three slots: the next attempt runs; status
    200: the promise resolves. *)
Lemma proxied_answer_handling_witness :
  attempt (runCall getOptions (readingsAt 1000)
             [tickAt (OnLoad (responseWith 204)) 1100] (initialWorld true)) = 2%nat /\
  phase (runCall getOptions (readingsAt 1000)
           [tickAt (OnLoad (responseWith 200)) 1100] (initialWorld true))
  = Settled (Resolved (responseWith 200)).
Proof.
  pose (c := makeProxyRequest getOptions (readingsAt 1000) (initialWorld true)).
  pose (p := {| host := "38.154.227.167"; port := Num 5868;
                username := Some "kdzrrkqv"; password := Some "763ww9x8x6x3";
                proxy := "38.154.227.167:5868" |}).
  unfold runCall. cbn [fold_left]. fold c.
  rewrite <- !deliverAmong_alone. split.
  - apply (proxied_answer_handling getOptions c
             (alone (tickAt (OnLoad (responseWith 204)) 1100)) p 1000 (responseWith 204)).
    + left. reflexivity.
    + reflexivity.
    + discriminate.
    + discriminate.
  - apply (proxied_answer_handling getOptions c
             (alone (tickAt (OnLoad (responseWith 200)) 1100)) p 1000 (responseWith 200)).
    + left. reflexivity.
    + reflexivity.
    + reflexivity.
Defined.

(** *** Counting the transport calls of one call *)

Lemma countEvents_snoc f l e :
  countEvents f (l ++ [e])%list = (countEvents f l + if f e then 1 else 0)%nat.
Proof.
  unfold countEvents. rewrite List.filter_app, length_app. cbn.
  destruct (f e); reflexivity.
Qed.

Lemma countEvents_split l :
  length l = (countEvents isProxied l + countEvents isDirect l)%nat.
Proof.
  unfold countEvents, isDirect. induction l as [|e l IH]; cbn; [reflexivity|].
  destruct (isProxied e); cbn; lia.
Qed.

Lemma directIsLast_count l : directIsLast l -> countEvents isDirect l = 1%nat.
Proof.
  intros (l0 & e & -> & He & H0). rewrite countEvents_snoc, He, H0. reflexivity.
Qed.

Lemma directIsLast_snoc l e :
  countEvents isDirect l = 0%nat -> isDirect e = true -> directIsLast (l ++ [e])%list.
Proof. intros H0 He. exists l, e. auto. Qed.

Ltac count_events :=
  unfold proxiedCount, reissueCount, directCount in *;
  cbn [dispatched attempt world phase dispatch settle] in *;
  rewrite ?countEvents_snoc in *;
  cbn [isProxied isReissue isDirect fst negb] in *.

Lemma attemptRequest_invariant options rd c :
  readyToAttempt options c -> callInvariant options (attemptRequest options rd c).
Proof.
  intros (Hd & Hp & Ha & Hr & Hr4 & Hpost). unfold attemptRequest.
  cbn [attempt excludedProxies world dispatched].
  destruct (MAX_PROXY_RETRIES <? S (attempt c))%nat eqn:Hmax.
  - unfold callInvariant. count_events. unfold MAX_PROXY_RETRIES, MAX_405_ERRORS in *.
    repeat split; try lia; try (intros; rewrite Hpost by assumption; lia).
    apply directIsLast_snoc; [exact Hd|reflexivity].
  - apply Nat.ltb_ge in Hmax.
    destruct (selectRandomProxy _ _ _ _ _) as [w1 [p|]] eqn:Hsel;
      destruct (selectRandomProxy_frame _ _ _ _ _ _ _ Hsel) as [Hc _];
      unfold callInvariant; count_events; unfold MAX_PROXY_RETRIES, MAX_405_ERRORS in *.
    + repeat split; try lia; try (intros; rewrite Hpost by assumption; lia).
    + repeat split; try lia; try (intros; rewrite Hpost by assumption; lia).
      apply directIsLast_snoc; [exact Hd|reflexivity].
Qed.

Lemma updateProxyStats_count k success rt blocked tU tB w :
  http405Count (updateProxyStats k success rt blocked tU tB w) = http405Count w.
Proof. reflexivity. Qed.

Lemma updateProxyStats_enabled k success rt blocked tU tB w :
  isProxyEnabled (updateProxyStats k success rt blocked tU tB w) = isProxyEnabled w.
Proof. reflexivity. Qed.

Ltac close_invariant :=
  rewrite ?updateProxyStats_count in *;
  cbn [http405Count setHttp405Count setProxyEnabled] in *;
  unfold MAX_PROXY_RETRIES, MAX_405_ERRORS in *;
  repeat split;
  try lia; try discriminate;
  try (apply directIsLast_snoc; [lia|reflexivity]);
  try (intros; congruence);
  try match goal with
      | H : isPost ?o = false -> _ |- isPost ?o = false -> _ =>
          let E := fresh in intros E; specialize (H E); lia
      end.

Lemma failAndRetry_invariant options p rt tk c f :
  callInvariant options c ->
  phase c = Awaiting f -> isProxied (f, directRequest options) = true ->
  callInvariant options (failAndRetry options p rt tk c).
Proof.
  intros (Hr4 & Hpost & Hp3 & Ha4 & Hph) Hf Hprox. unfold failAndRetry.
  apply attemptRequest_invariant. rewrite Hf in Hph.
  unfold readyToAttempt. count_events.
  destruct f; try discriminate Hprox; destruct Hph as (Hd & Hp & Ha & Hr);
    close_invariant.
Qed.

Lemma onload_invariant options p start r tk c f :
  callInvariant options c ->
  phase c = Awaiting f -> isProxied (f, directRequest options) = true ->
  callInvariant options (onload options p start r tk c).
Proof.
  intros Hinv Hf Hprox. pose proof Hinv as (Hr4 & Hpost & Hp3 & Ha4 & Hph).
  rewrite Hf in Hph.
  assert (Hin : directCount c = 0%nat /\
                proxiedCount c = (attempt c + reissueCount c)%nat /\
                (attempt c <= MAX_PROXY_RETRIES)%nat /\
                (reissueCount c <= http405Count (world c))%nat)
    by (destruct f; try discriminate Hprox; exact Hph).
  clear Hph. destruct Hin as (Hd & Hp & Ha & Hr).
  unfold onload.
  destruct (status r =? 200).
  { unfold callInvariant. count_events. close_invariant. }
  destruct (status r =? 405); [|eapply failAndRetry_invariant; eauto].
  cbn [http405Count updateProxyStats saveProxyStats setProxyStats setHttp405Count].
  destruct (MAX_405_ERRORS <=? S (http405Count (world c)))%nat eqn:Htrip.
  { unfold callInvariant. count_events. close_invariant. }
  apply Nat.leb_gt in Htrip.
  destruct (isPost options) eqn:Hpo.
  - unfold callInvariant. count_events. close_invariant.
  - apply attemptRequest_invariant. unfold readyToAttempt. count_events.
    close_invariant.
Qed.

Lemma deliver_invariant options c tk :
  callInvariant options c -> callInvariant options (deliver options c tk).
Proof.
  intros Hinv. unfold deliver.
  destruct (phase c) as [f|s] eqn:Hf; [|exact Hinv].
  pose proof Hinv as (Hr4 & Hpost & Hp3 & Ha4 & Hph). rewrite Hf in Hph.
  destruct f; destruct (outcome tk);
    try (eapply onload_invariant; eauto; fail);
    try (eapply failAndRetry_invariant; eauto; fail);
    try destruct (attempt c =? 1)%nat;
    unfold callInvariant; count_events; auto 10;
    destruct Hph as (Hd & _); auto 10.
Qed.

Lemma makeProxyRequest_invariant options rd w :
  callInvariant options (makeProxyRequest options rd w).
Proof.
  unfold makeProxyRequest. destruct (negb (isProxyEnabled w)).
  - unfold callInvariant. count_events. unfold countEvents. cbn.
    unfold MAX_PROXY_RETRIES, MAX_405_ERRORS.
    repeat split; try lia. exists [], (DirectDisabled, directRequest options). auto.
  - apply attemptRequest_invariant. unfold readyToAttempt. count_events.
    unfold countEvents, MAX_PROXY_RETRIES, MAX_405_ERRORS. cbn. repeat split; lia.
Qed.

(** *** The 405 streak and the circuit flag *)

Lemma setProxyEnabled_false w : isProxyEnabled (setProxyEnabled false w) = false.
Proof. reflexivity. Qed.

(** How one handler run moves the streak and the flag. *)
Lemma deliver_circuit options c tk :
  let w' := world (deliver options c tk) in
  match proxiedStatus c tk with
  | Some st =>
      if st =? 200 then
        http405Count w' = 0%nat /\ isProxyEnabled w' = isProxyEnabled (world c)
      else if st =? 405 then
        http405Count w' = S (http405Count (world c)) /\
        isProxyEnabled w' =
          if (MAX_405_ERRORS <=? S (http405Count (world c)))%nat
          then false else isProxyEnabled (world c)
      else http405Count w' = http405Count (world c) /\
           isProxyEnabled w' = isProxyEnabled (world c)
  | None => http405Count w' = http405Count (world c) /\
            isProxyEnabled w' = isProxyEnabled (world c)
  end.
Proof.
  assert (Hfail : forall p rt,
             http405Count (world (failAndRetry options p rt tk c)) = http405Count (world c) /\
             isProxyEnabled (world (failAndRetry options p rt tk c)) = isProxyEnabled (world c)).
  { intros p rt. unfold failAndRetry.
    destruct (attemptRequest_frame options (next tk)
                {| phase := phase c; attempt := attempt c;
                   excludedProxies := (excludedProxies c ++ [proxy p])%list;
                   dispatched := dispatched c;
                   world := updateProxyStats (proxy p) false rt false (tUsed tk) (tUsed tk)
                              (world c) |}) as [-> ->].
    cbn [world]. auto. }
  assert (Hload : forall p start r,
             let w' := world (onload options p start r tk c) in
             if status r =? 200 then
               http405Count w' = 0%nat /\ isProxyEnabled w' = isProxyEnabled (world c)
             else if status r =? 405 then
               http405Count w' = S (http405Count (world c)) /\
               isProxyEnabled w' =
                 if (MAX_405_ERRORS <=? S (http405Count (world c)))%nat
                 then false else isProxyEnabled (world c)
             else http405Count w' = http405Count (world c) /\
                  isProxyEnabled w' = isProxyEnabled (world c)).
  { intros p start r. unfold onload.
    destruct (status r =? 200); [cbn; auto|].
    destruct (status r =? 405); [|apply Hfail].
    cbn [http405Count updateProxyStats saveProxyStats setProxyStats setHttp405Count].
    destruct (MAX_405_ERRORS <=? S (http405Count (world c)))%nat; [cbn; auto|].
    destruct (isPost options); [cbn; auto|].
    match goal with
    | |- context [attemptRequest ?o ?rd ?c0] =>
        destruct (attemptRequest_frame o rd c0) as [Hc He]
    end.
    cbn zeta. rewrite Hc, He. cbn. auto. }
  unfold proxiedStatus, deliver.
  destruct (phase c) as [[]|]; destruct (outcome tk);
    try apply Hload; try apply Hfail;
    try destruct (attempt c =? 1)%nat; cbn; auto.
Qed.

Lemma makeProxyRequest_frame options rd w :
  http405Count (world (makeProxyRequest options rd w)) = http405Count w /\
  isProxyEnabled (world (makeProxyRequest options rd w)) = isProxyEnabled w.
Proof.
  unfold makeProxyRequest. destruct (negb _); [cbn; auto|].
  apply (attemptRequest_frame options rd
           {| phase := Awaiting DirectDisabled; attempt := 0; excludedProxies := [];
              dispatched := []; world := w |}).
Qed.

Lemma deliverShared_circuit (step : SharedStep) (w : World) :
  let w' := deliverShared w step in
  (is200 step = true -> http405Count w' = 0%nat) /\
  (is200 step = false -> is405 step = true ->
   http405Count w' = S (http405Count w) /\
   isProxyEnabled w' = if (MAX_405_ERRORS <=? S (http405Count w))%nat
                       then false else isProxyEnabled w) /\
  (is200 step = false -> is405 step = false ->
   http405Count w' = http405Count w /\ isProxyEnabled w' = isProxyEnabled w).
Proof.
  destruct step as [options rd|options c tk]; unfold deliverShared, is200, is405, stepStatus.
  { pose proof (makeProxyRequest_frame options rd w) as H.
    cbn zeta. repeat split; intros; try discriminate; apply H. }
  pose proof (deliver_circuit options (withWorld c w) tk) as H.
  change (proxiedStatus (withWorld c w) tk) with (proxiedStatus c tk) in H.
  cbn [world withWorld] in H. cbn zeta in *.
  destruct (proxiedStatus c tk) as [st|].
  - destruct (st =? 200); [|destruct (st =? 405)]; destruct H as [Hc He];
      repeat split; intros; try discriminate; assumption.
  - destruct H as [Hc He]. repeat split; intros; try discriminate; assumption.
Qed.

(** C3 (counterexample).  After four 405 answers a proxied request is
    answered 204: the streak is still 4, not 0, and the next 405 trips
    the breaker. *)
Lemma streak_not_reset_by_204_counterexample :
  let ticks := [tickAt (OnLoad (responseWith 405)) 1100;
                tickAt (OnLoad (responseWith 405)) 1200;
                tickAt (OnLoad (responseWith 405)) 1300;
                tickAt (OnLoad (responseWith 405)) 1400;
                tickAt (OnLoad (responseWith 204)) 1500] in
  let c5 := runCall postOptions (readingsAt 1000) ticks (initialWorld true) in
  let c6 := deliver postOptions c5 (tickAt (OnLoad (responseWith 405)) 2600) in
  http405Count (world c5) = 4%nat /\
  http405Count (world c5) <> 0%nat /\
  isProxyEnabled (world c5) = true /\
  phase c6 = Awaiting DirectAfterTrip /\
  isProxyEnabled (world c6) = false.
Proof. vm_compute. repeat split. discriminate. Qed.

(** C3 (amended).  The streak counts the 405 answers to proxied requests
    of all calls and is set to 0 only by a proxied answer with status
    exactly 200.  Over any interleaving of call starts and handler runs
    without such an answer, the streak grows by the number of 405
    answers; the layer is disabled as soon as a 405 answer brings the
    streak to [MAX_405_ERRORS], is not disabled while the streak stays
    below, and once disabled stays disabled.  A call made while the layer
    is disabled selects no proxy and makes a single direct request. *)
Theorem circuit_trip :
  (forall (steps : list SharedStep) (w : World),
     forallb (fun s => negb (is200 s)) steps = true ->
     let w' := fold_left deliverShared steps w in
     let n := length (List.filter is405 steps) in
     http405Count w' = (http405Count w + n)%nat /\
     ((1 <= n)%nat -> (MAX_405_ERRORS <= http405Count w + n)%nat ->
      isProxyEnabled w' = false) /\
     ((http405Count w + n < MAX_405_ERRORS)%nat ->
      isProxyEnabled w' = isProxyEnabled w) /\
     (isProxyEnabled w = false -> isProxyEnabled w' = false)) /\
  (forall (step : SharedStep) (w : World),
     is200 step = true -> http405Count (deliverShared w step) = 0%nat) /\
  (forall (options : Options) (rd : Readings) (ticks : list Tick) (w : World),
     isProxyEnabled w = false ->
     let c := runCall options rd ticks w in
     dispatched c = [(DirectDisabled, directRequest options)] /\
     world c = w /\ attempt c = 0%nat).
Proof.
  split; [|split].
  - intros steps. induction steps as [|s steps IH]; intros w Hno.
    + cbn. repeat split; auto; lia.
    + cbn [forallb] in Hno. apply andb_prop in Hno as [Hs Hno].
      apply negb_true_iff in Hs.
      cbn [fold_left List.filter]. specialize (IH (deliverShared w s) Hno).
      cbn zeta in IH. destruct IH as (Hc & Htrip & Hkeep & Hoff).
      destruct (deliverShared_circuit s w) as (_ & H405 & Hother).
      destruct (is405 s) eqn:E405.
      * destruct (H405 Hs eq_refl) as [Hc1 He1]. cbn [length].
        rewrite Hc1 in *. repeat split.
        -- lia.
        -- intros _ Hmax.
           destruct (length (List.filter is405 steps)) as [|m] eqn:Hm.
           ++ apply Hoff. rewrite He1.
              destruct (MAX_405_ERRORS <=? S (http405Count w))%nat eqn:Hle;
                [reflexivity|]. apply Nat.leb_gt in Hle. lia.
           ++ apply Htrip; lia.
        -- intros Hlt. rewrite Hkeep by lia. rewrite He1.
           destruct (MAX_405_ERRORS <=? S (http405Count w))%nat eqn:Hle;
             [|reflexivity]. apply Nat.leb_le in Hle. lia.
        -- intros Hd. apply Hoff. rewrite He1, Hd.
           destruct (_ <=? _)%nat; reflexivity.
      * destruct (Hother Hs eq_refl) as [Hc1 He1]. rewrite Hc1, He1 in *.
        repeat split; auto.
  - intros step w H. destruct (deliverShared_circuit step w) as (H200 & _). auto.
  - intros options rd ticks w Hoff. unfold runCall, makeProxyRequest.
    rewrite Hoff. cbn [negb].
    destruct ticks as [|tk ticks]; [cbn; auto|].
    cbn [fold_left].
    assert (Hs : exists s, deliver options
                   (dispatch DirectDisabled (directRequest options)
                      {| phase := Awaiting DirectDisabled; attempt := 0;
                         excludedProxies := []; dispatched := []; world := w |} w) tk
                 = {| phase := Settled s; attempt := 0; excludedProxies := [];
                      dispatched := [(DirectDisabled, directRequest options)];
                      world := w |}).
    { unfold deliver. cbn [phase dispatch]. destruct (outcome tk); eexists; reflexivity. }
    destruct Hs as [s ->]. rewrite (run_settled options ticks _ s); cbn; auto.
Qed.

(** *** Bounds on the transport calls, other calls running beside the call *)

Lemma runCallAmong_snoc options rd turns t w :
  runCallAmong options rd (turns ++ [t]) w
  = deliverAmong options (runCallAmong options rd turns w) t.
Proof. unfold runCallAmong. by rewrite fold_left_app. Qed.

(** With nothing beside it, the call runs as [runCall] has it. *)
Lemma runCallAmong_alone options rd ticks w :
  runCallAmong options rd (map alone ticks) w = runCall options rd ticks w.
Proof.
  unfold runCallAmong, runCall. generalize (makeProxyRequest options rd w).
  induction ticks as [|tk ticks IH]; intros c; cbn [map fold_left]; [reflexivity|].
  by rewrite deliverAmong_alone.
Qed.

Lemma attemptRequest_slots options rd c :
  directCount c = 0%nat ->
  proxiedCount c = (attempt c + reissueCount c)%nat ->
  (attempt c <= MAX_PROXY_RETRIES)%nat ->
  (isPost options = false -> reissueCount c = 0%nat) ->
  let c' := attemptRequest options rd c in
  slotInvariant options c' /\
  reissueCount c' = reissueCount c /\
  isSettled c' = false /\
  (reportsLeft c' + attempt c <= MAX_PROXY_RETRIES + 1)%nat.
Proof.
  intros Hd Hp Ha Hpost. unfold attemptRequest.
  cbn [attempt excludedProxies world dispatched].
  destruct (MAX_PROXY_RETRIES <? S (attempt c))%nat eqn:Hmax.
  - unfold slotInvariant, reportsLeft, isSettled. count_events.
    unfold MAX_PROXY_RETRIES in *.
    repeat split; try lia; try (intros; rewrite Hpost by assumption; lia).
    apply directIsLast_snoc; [exact Hd|reflexivity].
  - apply Nat.ltb_ge in Hmax.
    destruct (selectRandomProxy _ _ _ _ _) as [w1 [p|]];
      unfold slotInvariant, reportsLeft, isSettled; count_events;
      unfold MAX_PROXY_RETRIES in *.
    + repeat split; try lia; try (intros; rewrite Hpost by assumption; lia).
    + repeat split; try lia; try (intros; rewrite Hpost by assumption; lia).
      apply directIsLast_snoc; [exact Hd|reflexivity].
Qed.

(** One report: the closure invariant is kept, a GET reissue is made only
    on a report with status 405, and any report that is not followed by a
    reissue brings the call one step closer to its settlement. *)
Lemma deliver_slots options c tk :
  slotInvariant options c ->
  let c' := deliver options c tk in
  slotInvariant options c' /\
  (reissueCount c <= reissueCount c')%nat /\
  (reissueCount c' <= reissueCount c + if answers405 tk then 1 else 0)%nat /\
  (isSettled c' = false ->
   isSettled c = false /\
   (reportsLeft c' + 1 + reissueCount c <= reportsLeft c + reissueCount c')%nat).
Proof.
  intros Hinv.
  assert (Hretry : forall p rt f,
            phase c = Awaiting f -> isProxied (f, directRequest options) = true ->
            let c' := failAndRetry options p rt tk c in
            slotInvariant options c' /\
            reissueCount c' = reissueCount c /\
            isSettled c' = false /\
            (reportsLeft c' + 1 <= reportsLeft c)%nat).
  { intros p rt f Hf Hprox. pose proof Hinv as (Hpost & Hp3 & Ha4 & Hph).
    rewrite Hf in Hph. unfold failAndRetry.
    match goal with
    | |- context [attemptRequest options (next tk) ?c1] => set (c0 := c1)
    end.
    assert (Hleft : reportsLeft c = (MAX_PROXY_RETRIES + 2 - attempt c)%nat)
      by (unfold reportsLeft; rewrite Hf; destruct f; try discriminate Hprox; reflexivity).
    assert (Hin : directCount c = 0%nat /\
                  proxiedCount c = (attempt c + reissueCount c)%nat /\
                  (1 <= attempt c <= MAX_PROXY_RETRIES)%nat)
      by (destruct f; try discriminate Hprox; exact Hph).
    destruct Hin as (Hd & Hp & Ha1 & Ha).
    destruct (attemptRequest_slots options (next tk) c0 Hd Hp Ha Hpost)
      as (H1 & H2 & H3 & H4).
    change (reissueCount c0) with (reissueCount c) in *.
    change (attempt c0) with (attempt c) in *.
    cbn zeta. rewrite Hleft. unfold MAX_PROXY_RETRIES in *.
    split; [exact H1|]. split; [exact H2|]. split; [exact H3|]. lia. }
  assert (Hload : forall p start r f,
            phase c = Awaiting f -> isProxied (f, directRequest options) = true ->
            outcome tk = OnLoad r ->
            let c' := onload options p start r tk c in
            slotInvariant options c' /\
            (reissueCount c <= reissueCount c')%nat /\
            (reissueCount c' <= reissueCount c + if answers405 tk then 1 else 0)%nat /\
            (isSettled c' = false ->
             (reportsLeft c' + 1 + reissueCount c <= reportsLeft c + reissueCount c')%nat)).
  { intros p start r f Hf Hprox Hout.
    pose proof Hinv as (Hpost & Hp3 & Ha4 & Hph). rewrite Hf in Hph.
    assert (Hin : directCount c = 0%nat /\
                  proxiedCount c = (attempt c + reissueCount c)%nat /\
                  (1 <= attempt c <= MAX_PROXY_RETRIES)%nat)
      by (destruct f; try discriminate Hprox; exact Hph).
    assert (Hleft : reportsLeft c = (MAX_PROXY_RETRIES + 2 - attempt c)%nat)
      by (unfold reportsLeft; rewrite Hf; destruct f; try discriminate Hprox; reflexivity).
    clear Hph. destruct Hin as (Hd & Hp & Ha1 & Ha).
    unfold onload, answers405. rewrite Hout.
    destruct (status r =? 200).
    { unfold slotInvariant, isSettled. count_events. cbn zeta.
      repeat split; auto; try lia; discriminate. }
    destruct (status r =? 405).
    2:{ destruct (Hretry p (tDone tk - start) f Hf Hprox) as (H1 & H2 & H3 & H4).
        cbn zeta. split; [exact H1|]. split; [lia|]. split; [lia|]. intros _. lia. }
    destruct (MAX_405_ERRORS <=? _)%nat.
    { cbn zeta. rewrite Hleft. unfold slotInvariant, reportsLeft, isSettled. count_events.
      unfold MAX_PROXY_RETRIES in *.
      repeat split; auto; try lia;
        try (apply directIsLast_snoc; [exact Hd|reflexivity]);
        try (intros E; specialize (Hpost E); lia). }
    destruct (isPost options) eqn:Hpo.
    - cbn zeta. rewrite Hleft. unfold slotInvariant, reportsLeft, isSettled. count_events.
      unfold MAX_PROXY_RETRIES in *.
      repeat split; auto; try lia; try discriminate; intros E; congruence.
    - match goal with
      | |- context [attemptRequest options (next tk) ?c1] => set (c0 := c1)
      end.
      destruct (attemptRequest_slots options (next tk) c0 Hd Hp Ha
                  (fun _ => Hpost eq_refl)) as (H1 & H2 & H3 & H4).
      change (reissueCount c0) with (reissueCount c) in *.
      change (attempt c0) with (attempt c) in *.
      cbn zeta. rewrite Hleft. unfold MAX_PROXY_RETRIES in *.
      split; [exact H1|]. split; [lia|]. split; [lia|]. intros _. lia. }
  cbn zeta. unfold deliver.
  destruct (phase c) as [f|s] eqn:Hf.
  2:{ unfold isSettled. rewrite Hf. split; [exact Hinv|]. split; [lia|].
      split; [destruct (answers405 tk); lia|discriminate]. }
  assert (Hpend : isSettled c = false) by (unfold isSettled; rewrite Hf; reflexivity).
  pose proof Hinv as (Hpost & Hp3 & Ha4 & Hph). rewrite Hf in Hph.
  destruct f; destruct (outcome tk) eqn:Hout;
    try (match goal with
         | |- context [onload options ?p ?st ?r tk c] =>
             destruct (Hload p st r _ eq_refl eq_refl eq_refl) as (H1 & H2 & H3 & H4)
         end;
         split; [exact H1|]; split; [exact H2|]; split; [exact H3|];
         intros Hs; split; [exact Hpend|exact (H4 Hs)]);
    try (match goal with
         | |- context [failAndRetry options ?p ?rt tk c] =>
             destruct (Hretry p rt _ eq_refl eq_refl) as (H1 & H2 & H3 & H4)
         end;
         split; [exact H1|]; split; [lia|]; split; [destruct (answers405 tk); lia|];
         intros Hs; split; [exact Hpend|lia]);
    try destruct (attempt c =? 1)%nat;
    unfold slotInvariant, isSettled; count_events;
    repeat split; auto; try discriminate; try (destruct (answers405 tk); lia);
    try (destruct Hph as (Hd0 & _); auto; fail).
Qed.

(** The same for a report with other calls beside the call. *)
Lemma deliverAmong_slots options c t :
  slotInvariant options c ->
  let c' := deliverAmong options c t in
  slotInvariant options c' /\
  (reissueCount c <= reissueCount c')%nat /\
  (reissueCount c' <= reissueCount c + if answers405 (report t) then 1 else 0)%nat /\
  (isSettled c' = false ->
   isSettled c = false /\
   (reportsLeft c' + 1 + reissueCount c <= reportsLeft c + reissueCount c')%nat).
Proof.
  intros Hinv. unfold deliverAmong.
  set (c0 := withWorld c (fold_left deliverShared (inFlight t) (world c))).
  destruct (armsRetry options c0 (report t)) as [c1|] eqn:Harm.
  2:{ apply (deliver_slots options c0 (report t)). exact Hinv. }
  destruct (armsRetry_spec _ _ _ _ Harm) as (p & start & Hph & Hp1 & Ha1 & Hd1 & _).
  change (phase c0) with (phase c) in Hph. change (attempt c0) with (attempt c) in Ha1.
  change (dispatched c0) with (dispatched c) in Hd1.
  set (c2 := withWorld c1 (fold_left deliverShared (beforeRetry t) (world c1))).
  assert (Hr2 : reissueCount c2 = reissueCount c)
    by (unfold reissueCount; cbn [c2 withWorld dispatched]; by rewrite Hd1).
  assert (Hx2 : proxiedCount c2 = proxiedCount c)
    by (unfold proxiedCount; cbn [c2 withWorld dispatched]; by rewrite Hd1).
  assert (Hy2 : directCount c2 = directCount c)
    by (unfold directCount; cbn [c2 withWorld dispatched]; by rewrite Hd1).
  assert (Ha2 : attempt c2 = attempt c) by exact Ha1.
  destruct Hinv as (Hpost & Hp3 & Ha4 & Hinv).
  assert (Hin : directCount c = 0%nat /\
                proxiedCount c = (attempt c + reissueCount c)%nat /\
                (1 <= attempt c <= MAX_PROXY_RETRIES)%nat)
    by (destruct Hph as [E|E]; rewrite E in Hinv; exact Hinv).
  assert (Hleft : reportsLeft c = (MAX_PROXY_RETRIES + 2 - attempt c)%nat)
    by (unfold reportsLeft; destruct Hph as [E|E]; rewrite E; reflexivity).
  assert (Hpend : isSettled c = false)
    by (unfold isSettled; destruct Hph as [E|E]; rewrite E; reflexivity).
  destruct Hin as (Hd & Hp & Hlo & Hhi).
  destruct (attemptRequest_slots options (next (report t)) c2) as (H1 & H2 & H3 & H4).
  - by rewrite Hy2.
  - by rewrite Hx2, Ha2, Hr2.
  - by rewrite Ha2.
  - by rewrite Hr2.
  - cbn zeta. rewrite H2, Hr2, Hleft. rewrite Ha2 in H4. unfold MAX_PROXY_RETRIES in *.
    split; [exact H1|]. split; [lia|]. split; [destruct (answers405 (report t)); lia|].
    intros _. split; [exact Hpend|lia].
Qed.

Lemma makeProxyRequest_slots options rd w :
  let c := makeProxyRequest options rd w in
  slotInvariant options c /\ reissueCount c = 0%nat /\
  (reportsLeft c <= MAX_PROXY_RETRIES + 1)%nat.
Proof.
  unfold makeProxyRequest. destruct (negb (isProxyEnabled w)).
  - unfold slotInvariant, reportsLeft. count_events. unfold countEvents. cbn.
    unfold MAX_PROXY_RETRIES.
    repeat split; try lia. exists [], (DirectDisabled, directRequest options). auto.
  - match goal with
    | |- context [attemptRequest options rd ?c1] => set (c0 := c1)
    end.
    destruct (attemptRequest_slots options rd c0) as (H1 & H2 & H3 & H4);
      try reflexivity; try (cbn; unfold MAX_PROXY_RETRIES; lia).
    change (attempt c0) with 0%nat in H4.
    cbn zeta. split; [exact H1|]. split; [rewrite H2; reflexivity|]. lia.
Qed.

Lemma runAmong_slots options turns c n k :
  slotInvariant options c ->
  (reissueCount c <= n)%nat ->
  (isSettled c = false -> k + reportsLeft c <= MAX_PROXY_RETRIES + 1 + reissueCount c)%nat ->
  let c' := fold_left (deliverAmong options) turns c in
  slotInvariant options c' /\
  (reissueCount c' <= n + answered405 turns)%nat /\
  (isSettled c' = false ->
   k + length turns + reportsLeft c' <= MAX_PROXY_RETRIES + 1 + reissueCount c')%nat.
Proof.
  revert c n k. induction turns as [|t turns IH]; intros c n k Hinv Hn Hk.
  - cbn [fold_left length]. unfold answered405. cbn [List.filter length].
    split; [exact Hinv|]. split; [lia|]. intros Hs. specialize (Hk Hs). lia.
  - cbn [fold_left]. unfold answered405. cbn [List.filter length].
    destruct (deliverAmong_slots options c t Hinv) as (H1 & H2 & H3 & H4).
    destruct (IH (deliverAmong options c t)
                 (n + if answers405 (report t) then 1 else 0)%nat (S k) H1) as (I1 & I2 & I3).
    + lia.
    + intros Hs. destruct (H4 Hs) as [Hc Hle]. specialize (Hk Hc). lia.
    + cbn zeta. split; [exact I1|]. split.
      * fold (answered405 turns) in *.
        destruct (answers405 (report t)); cbn [length]; unfold answered405 in *; lia.
      * intros Hs. specialize (I3 Hs). cbn [length]. lia.
Qed.

(** Handlers of other calls that see no status 200 do not lower the
    streak. *)
Lemma others_keep_streak (steps : list SharedStep) (w : World) :
  Forall (fun s => is200 s = false) steps ->
  (http405Count w <= http405Count (fold_left deliverShared steps w))%nat.
Proof.
  revert w. induction steps as [|s steps IH]; intros w H; cbn [fold_left]; [lia|].
  inversion H as [|? ? Hs Hrest]; subst.
  specialize (IH (deliverShared w s) Hrest).
  destruct (deliverShared_circuit s w) as (_ & H405 & Hother).
  destruct (is405 s).
  - destruct (H405 Hs eq_refl) as [Hc _]. lia.
  - destruct (Hother Hs eq_refl) as [Hc _]. lia.
Qed.

Lemma callInvariant_withWorld options c w :
  callInvariant options c ->
  (http405Count (world c) <= http405Count w)%nat ->
  callInvariant options (withWorld c w).
Proof.
  intros (Hr4 & Hpost & Hp3 & Ha4 & Hph) Hw. unfold callInvariant.
  change (reissueCount (withWorld c w)) with (reissueCount c).
  change (proxiedCount (withWorld c w)) with (proxiedCount c).
  change (directCount (withWorld c w)) with (directCount c).
  cbn [withWorld phase attempt world dispatched].
  repeat split; auto.
  destruct (phase c) as [[]|]; auto; destruct Hph as (Hd & Hp & Ha & Hr);
    repeat split; auto; lia.
Qed.

Lemma deliverAmong_invariant options c t :
  Forall (fun s => is200 s = false) (inFlight t) ->
  Forall (fun s => is200 s = false) (beforeRetry t) ->
  callInvariant options c ->
  callInvariant options (deliverAmong options c t).
Proof.
  intros Hin Hbefore Hc. unfold deliverAmong.
  set (c0 := withWorld c (fold_left deliverShared (inFlight t) (world c))).
  assert (Hc0 : callInvariant options c0)
    by (apply callInvariant_withWorld; [exact Hc|apply others_keep_streak, Hin]).
  destruct (armsRetry options c0 (report t)) as [c1|] eqn:Harm;
    [|apply deliver_invariant, Hc0].
  destruct (armsRetry_spec _ _ _ _ Harm) as (p & start & Hph & Hp1 & Ha1 & Hd1 & _ & Hw1).
  pose proof (others_keep_streak (beforeRetry t) (world c1) Hbefore) as Hw2.
  destruct Hc0 as (Hr4 & Hpost & Hp3 & Ha4 & Hinv).
  assert (Hready : directCount c0 = 0%nat /\
                   proxiedCount c0 = (attempt c0 + reissueCount c0)%nat /\
                   (attempt c0 <= MAX_PROXY_RETRIES)%nat /\
                   (reissueCount c0 <= http405Count (world c0))%nat)
    by (destruct Hph as [E|E]; rewrite E in Hinv; exact Hinv).
  destruct Hready as (Hd & Hp & Ha & Hr).
  apply attemptRequest_invariant. unfold readyToAttempt.
  unfold directCount, proxiedCount, reissueCount in *.
  cbn [withWorld dispatched attempt world]. rewrite Hd1, Ha1.
  repeat split; auto; lia.
Qed.

Lemma runAmong_invariant options turns c :
  noResetBeside turns ->
  callInvariant options c ->
  callInvariant options (fold_left (deliverAmong options) turns c).
Proof.
  revert c. induction turns as [|t turns IH]; intros c Hq Hc; cbn [fold_left]; [exact Hc|].
  inversion Hq as [|? ? [Hin Hbefore] Hrest]; subst.
  apply IH; [exact Hrest|]. by apply deliverAmong_invariant.
Qed.

(** A POST call beside which another call's proxied request is answered
    200 before each of its own 405 answers: the streak never passes 1, and
    after six reports the call has made six GET reissues and still waits
    for the seventh proxied request of its first attempt slot. *)
Lemma reissues_beside_other_calls :
  let ping := makeProxyRequest getOptions (readingsAt 900) (initialWorld true) in
  let turn t :=
    {| inFlight := [HandlerRuns getOptions ping (tickAt (OnLoad (responseWith 200)) t)];
       report := tickAt (OnLoad (responseWith 405)) (t + 10);
       beforeRetry := [] |} in
  let c := runCallAmong postOptions (readingsAt 1000)
             [turn 1100; turn 1200; turn 1300; turn 1400; turn 1500; turn 1600]
             (initialWorld true) in
  reissueCount c = 6%nat /\ proxiedCount c = 7%nat /\ attempt c = 1%nat /\
  isSettled c = false /\ http405Count (world c) = 1%nat /\
  isProxyEnabled (world c) = true.
Proof. vm_compute. repeat split. Qed.

(** C2 (counterexample).  A POST answered 405 once is reissued as GET on
    the same endpoint without using an attempt slot; with the other
    attempts failing, the call makes four proxied requests before its
    direct fallback. *)
Lemma retry_bound_counterexample :
  let c := runCall postOptions (readingsAt 1000)
             [tickAt (OnLoad (responseWith 405)) 1100;
              tickAt (OnLoad (responseWith 500)) 1200;
              tickAt (OnLoad (responseWith 500)) 2300;
              tickAt (OnLoad (responseWith 500)) 3400;
              tickAt (OnLoad (responseWith 200)) 4500] (initialWorld true) in
  phase c = Settled (Resolved (responseWith 200)) /\
  proxiedCount c = 4%nat /\ directCount c = 1%nat /\
  ~ (proxiedCount c <= MAX_PROXY_RETRIES)%nat.
Proof. vm_compute. repeat split. lia. Qed.

(** C2 (amended).  One call of [makeProxyRequest], with other calls
    running beside it, uses at most [MAX_PROXY_RETRIES] attempt slots,
    each with one proxied request; in addition a POST answered 405 while
    the streak stays below [MAX_405_ERRORS] is reissued as GET on the
    same endpoint, with the attempt number and the exclusion list
    unchanged.  The reissues are at most as many as the 405 answers the
    call received, none for another method, and at most
    [MAX_405_ERRORS - 1] when no proxied request of another call is
    answered 200 meanwhile.  At most one direct request is made and it is
    the last transport call of the call.  The promise no longer waits for
    a request after [MAX_PROXY_RETRIES + 1] reports that are not 405
    answers. *)
Theorem retry_bound (options : Options) (rd : Readings) (turns : list Turn) (w : World) :
  let c := runCallAmong options rd turns w in
  (attempt c <= S MAX_PROXY_RETRIES)%nat /\
  (proxiedCount c <= MAX_PROXY_RETRIES + reissueCount c)%nat /\
  (reissueCount c <= answered405 turns)%nat /\
  (isPost options = false -> proxiedCount c <= MAX_PROXY_RETRIES)%nat /\
  (directCount c <= 1)%nat /\
  (directCount c = 0%nat \/ directIsLast (dispatched c)) /\
  (MAX_PROXY_RETRIES + 1 + answered405 turns <= length turns -> isSettled c = true)%nat /\
  (isPost options = false ->
   (MAX_PROXY_RETRIES + 1 <= length turns)%nat -> isSettled c = true) /\
  (noResetBeside turns ->
   (reissueCount c <= MAX_405_ERRORS - 1)%nat /\
   ((MAX_PROXY_RETRIES + MAX_405_ERRORS <= length turns)%nat -> isSettled c = true)) /\
  (forall (t : Turn) (p : Proxy) (start : Z) (r : Response),
     let c1 := withWorld c (fold_left deliverShared (inFlight t) (world c)) in
     phase c = Awaiting (ViaProxy p start) \/ phase c = Awaiting (GetReissue p start) ->
     outcome (report t) = OnLoad r ->
     status r = 405 ->
     isPost options = true ->
     (S (http405Count (world c1)) < MAX_405_ERRORS)%nat ->
     runCallAmong options rd (turns ++ [t]) w
     = dispatch (GetReissue p start) (getRequest options p) c1
         (updateProxyStats (proxy p) false (tDone (report t) - start) false
            (tUsed (report t)) (tUsed (report t))
            (setHttp405Count (S (http405Count (world c1))) (world c1)))).
Proof.
  intros c.
  destruct (makeProxyRequest_slots options rd w) as (M1 & M2 & M3).
  destruct (runAmong_slots options turns (makeProxyRequest options rd w) 0 0 M1)
    as (Hinv & Hre & Hleft); [lia|intros _; lia|].
  fold (runCallAmong options rd turns w) in Hinv, Hre, Hleft. fold c in Hinv, Hre, Hleft.
  cbn zeta in Hleft. cbn [Nat.add] in Hre, Hleft.
  pose proof Hinv as (Hpost & Hp3 & Ha4 & Hph).
  assert (Hdir : directCount c = 0%nat \/ directIsLast (dispatched c)).
  { destruct (phase c) as [[]|]; try (right; exact Hph); try exact Hph;
      left; apply Hph. }
  assert (Hd1 : (directCount c <= 1)%nat).
  { destruct Hdir as [->|H%directIsLast_count]; [lia|]. unfold directCount. lia. }
  assert (Hpos : isSettled c = false -> (1 <= reportsLeft c)%nat).
  { unfold isSettled, reportsLeft. destruct (phase c) as [[]|]; try discriminate;
      intros _; try lia; destruct Hph as (_ & _ & Ha); unfold MAX_PROXY_RETRIES in *; lia. }
  split; [exact Ha4|]. split; [exact Hp3|]. split; [exact Hre|].
  split; [intros Hnp; rewrite (Hpost Hnp) in Hp3; lia|].
  split; [exact Hd1|]. split; [exact Hdir|].
  split; [|split; [|split]].
  - intros Hlen. destruct (isSettled c) eqn:Hs; [reflexivity|exfalso].
    specialize (Hleft eq_refl). specialize (Hpos eq_refl). lia.
  - intros Hnp Hlen. destruct (isSettled c) eqn:Hs; [reflexivity|exfalso].
    specialize (Hleft eq_refl). specialize (Hpos eq_refl). rewrite (Hpost Hnp) in Hleft. lia.
  - intros Hquiet.
    assert (Hcall : callInvariant options c)
      by (apply runAmong_invariant; [exact Hquiet|apply makeProxyRequest_invariant]).
    destruct Hcall as (Hr4 & _). split; [exact Hr4|].
    intros Hlen. destruct (isSettled c) eqn:Hs; [reflexivity|exfalso].
    specialize (Hleft eq_refl). specialize (Hpos eq_refl).
    unfold MAX_405_ERRORS, MAX_PROXY_RETRIES in *. lia.
  - intros t p start r c1 Hphase Hout Hst Hpo Hlt.
    rewrite runCallAmong_snoc. fold c. unfold deliverAmong. fold c1.
    assert (Hph1 : phase c1 = phase c) by reflexivity.
    unfold armsRetry, deliver. rewrite Hph1.
    apply Nat.leb_gt in Hlt.
    destruct Hphase as [-> | ->]; rewrite Hout; unfold onloadArms, onload; rewrite Hst;
      cbn [Z.eqb Pos.eqb]; rewrite updateProxyStats_count;
      cbn [http405Count setHttp405Count]; rewrite Hlt, Hpo; reflexivity.
Qed.

(** *** The error of an exhausted call *)

Lemma lastKind_dispatch f r c w : lastKind (dispatch f r c w) = Some f.
Proof. unfold lastKind, dispatch. cbn [dispatched]. by rewrite last_snoc. Qed.







(** A call that has all three slots used when its third proxied request
    is answered with the 405 that brings the streak to the threshold
    makes the trip fallback, not the exhaustion fallback, and the failure
    of that request is reported with the message of the trip. *)
Lemma tripped_on_last_slot_example :
  let c := runCall getOptions (readingsAt 1000)
             [tickAt (OnLoad (responseWith 405)) 1100;
              tickAt (OnLoad (responseWith 405)) 2200;
              tickAt (OnLoad (responseWith 405)) 3300;
              tickAt (OnError "ENETUNREACH") 4400]
             (setHttp405Count 2 (initialWorld true)) in
  attempt c = 3%nat /\ proxiedCount c = 3%nat /\
  lastKind c = Some DirectAfterTrip /\
  phase c = Settled (Rejected (NewError "Proxy auto-disabled and direct request failed")).
Proof. vm_compute. repeat split. Qed.



(** * Further properties of the module *)

(** ** Pool store and administration *)

Lemma mapM_length {A B} (f : A -> completion B) (l : list A) ys :
  mapM f l = Normal ys -> length ys = length l.
Proof.
  revert ys. induction l as [|x l IH]; cbn; intros ys H; [by injection H as <-|].
  destruct (f x); cbn in H; [|discriminate].
  destruct (mapM f l) as [zs|]; cbn in H; [|discriminate].
  injection H as <-. cbn. f_equal. by apply IH.
Qed.

Lemma loadProxyList_nonempty (w : World) : proxyList (loadProxyList w) <> [].
Proof.
  assert (Hdef : defaultPool <> []) by (intros H; apply (f_equal length) in H; discriminate H).
  unfold loadProxyList, loadProxyList_try.
  destruct (storedList (localStorage w)) as [[| | |elems]|]; try exact Hdef.
  destruct (0 <? length elems)%nat eqn:Hlen; [|exact Hdef].
  destruct (mapM parseStored elems) as [l|] eqn:Hl; cbn; [|exact Hdef].
  apply mapM_length in Hl. apply Nat.ltb_lt in Hlen.
  destruct l; [cbn in Hl; lia|discriminate].
Qed.

Lemma ensureProxyDataLoaded_nonempty (w : World) :
  proxyList (ensureProxyDataLoaded w) <> [].
Proof.
  unfold ensureProxyDataLoaded.
  destruct (length (proxyList w) =? 0)%nat eqn:He.
  - unfold loadProxyStats.
    destruct (storedStats (localStorage (loadProxyList w))) as [[| |m]|];
      apply loadProxyList_nonempty.
  - apply Nat.eqb_neq in He. destruct (proxyList w); [cbn in He; lia|discriminate].
Qed.

Lemma ensureProxyDataLoaded_loaded (w : World) :
  proxyList w <> [] -> ensureProxyDataLoaded w = w.
Proof.
  intros Hne. unfold ensureProxyDataLoaded.
  destruct (proxyList w); [congruence|reflexivity].
Qed.

(** X1.  Whatever storage holds, loading leaves a pool with at least one
    endpoint; the lazy load in front of every selection and report
    therefore always yields a non-empty pool, and it does nothing when
    the pool already has an endpoint. *)
Theorem pool_never_empty_after_load (w : World) :
  proxyList (loadProxyList w) <> [] /\
  proxyList (ensureProxyDataLoaded w) <> [] /\
  (proxyList w <> [] -> ensureProxyDataLoaded w = w).
Proof.
  split; [apply loadProxyList_nonempty|].
  split; [|apply ensureProxyDataLoaded_loaded].
  destruct (proxyList w) as [|p l] eqn:E.
  - unfold ensureProxyDataLoaded. rewrite E. cbn [length Nat.eqb].
    unfold loadProxyStats.
    destruct (storedStats (localStorage (loadProxyList w))) as [[| |m]|];
      apply loadProxyList_nonempty.
  - rewrite ensureProxyDataLoaded_loaded by (rewrite E; discriminate).
    rewrite E. discriminate.
Qed.

Lemma noColon_split_length s : noColon s = true <-> length (split ":" s) = 1%nat.
Proof.
  split; [intros H; by rewrite (split_noColon s H)|].
  induction s as [|c s IH]; cbn; [reflexivity|].
  destruct (Ascii.eqb c ":") eqn:Ec; cbn.
  - pose proof (split_nonempty ":" s). destruct (split ":" s); [congruence|discriminate].
  - destruct (split ":" s) as [|p ps] eqn:E; cbn; [intros _|intros H; apply IH; cbn; lia].
    exfalso. by apply (split_nonempty ":" s).
Qed.

(** On a string [parseProxy] accepts, [removeProxy] looks for the key
    [parseProxy] gives it. *)
Lemma removalKey_parsed s p : parseProxy s = Normal p -> removalKey s = proxy p.
Proof.
  unfold parseProxy, removalKey. intros H.
  destruct (noColon s) eqn:Hn.
  - apply noColon_split_length in Hn.
    destruct (split ":" s) as [|a [|b [|c [|d [|e l]]]]]; discriminate.
  - destruct (split ":" s) as [|a [|b [|c [|d [|e l]]]]]; try discriminate;
      injection H as <-; reflexivity.
Qed.

Lemma findIndex_none {A} (f : A -> bool) l :
  findIndex f l = None <-> existsb f l = false.
Proof.
  induction l as [|x l IH]; cbn; [tauto|].
  destruct (f x); cbn; [split; discriminate|].
  rewrite <- IH. destruct (findIndex f l); cbn; split; congruence.
Qed.

Lemma findIndex_some {A} (f : A -> bool) l i :
  findIndex f l = Some i ->
  exists x, l !! i = Some x /\ f x = true /\ existsb f (take i l) = false.
Proof.
  revert i. induction l as [|y l IH]; cbn; intros i H; [discriminate|].
  destruct (f y) eqn:Hy.
  - injection H as <-. exists y. auto.
  - destruct (findIndex f l) as [j|]; cbn in H; [|discriminate].
    injection H as <-. destruct (IH j eq_refl) as (x & Hx & Hfx & Hpre).
    exists x. cbn. rewrite Hy. auto.
Qed.

Lemma findIndex_snoc {A} (f : A -> bool) l x :
  existsb f l = false -> f x = true -> findIndex f (l ++ [x]) = Some (length l).
Proof.
  induction l as [|y l IH]; cbn; intros Hl Hx; [by rewrite Hx|].
  apply orb_false_elim in Hl as [Hy Hl]. rewrite Hy, (IH Hl Hx). reflexivity.
Qed.

Lemma existsb_key_false (l : list Proxy) k :
  existsb (fun q => String.eqb (proxy q) k) l = false <-> k ∉ map proxy l.
Proof.
  induction l as [|q l IH]; cbn; [split; [intros _; apply not_elem_of_nil|done]|].
  rewrite not_elem_of_cons, <- IH.
  destruct (String.eqb_spec (proxy q) k) as [E|E]; cbn.
  - split; [discriminate|]. intros [H _]. congruence.
  - split; [intros H; split; [congruence|exact H]|intros [_ H]; exact H].
Qed.

(** X2.  A string that parses and whose key is not in the pool is appended and
    the pool persisted; statistics are untouched; adding it again is
    refused and changes nothing. *)
Theorem addProxy_fresh_then_duplicate (s : string) (p : Proxy) (w : World) :
  parseProxy s = Normal p ->
  proxy p ∉ map proxy (proxyList w) ->
  let w' := snd (addProxy s w) in
  fst (addProxy s w) = true /\
  proxyList w' = (proxyList w ++ [p])%list /\
  storedList (localStorage w')
    = Some (LArray (map (fun q => JString (proxyToString q)) (proxyList w ++ [p]))) /\
  proxyStats w' = proxyStats w /\
  addProxy s w' = (false, w').
Proof.
  intros Hp Hfresh. apply existsb_key_false in Hfresh.
  unfold addProxy. rewrite Hp, Hfresh. cbn [fst snd]. repeat split.
  cbn [proxyList saveProxyList setLocalStorage setProxyList].
  rewrite existsb_app. cbn. rewrite String.eqb_refl, orb_true_r. reflexivity.
Qed.

Lemma addProxy_fresh_then_duplicate_witness :
  fst (addProxy "10.0.0.9:3128" worldWithBadEntry) = true.
Proof.
  apply (addProxy_fresh_then_duplicate "10.0.0.9:3128"
           (mkProxy "10.0.0.9" (Num 3128) None None "10.0.0.9:3128") worldWithBadEntry).
  - reflexivity.
  - cbn. apply not_elem_of_nil.
Defined.

(** X3.  Duplicates are detected by key alone: a string with a known
    [host:port] is refused whatever credentials it carries, and the
    endpoint already in the pool keeps its own. *)
Theorem addProxy_same_key_refused (s : string) (p : Proxy) (w : World) :
  parseProxy s = Normal p ->
  proxy p ∈ map proxy (proxyList w) ->
  addProxy s w = (false, w).
Proof.
  intros Hp Hin. unfold addProxy. rewrite Hp.
  destruct (existsb _ (proxyList w)) eqn:He; [reflexivity|].
  apply existsb_key_false in He. contradiction.
Qed.

Lemma delete_keys_notin (l : list Proxy) i k :
  findIndex (fun q => String.eqb (proxy q) k) l = Some i ->
  NoDup (map proxy l) -> k ∉ map proxy (delete i l).
Proof.
  revert i. induction l as [|q l IH]; cbn; intros i H Hnd; [discriminate|].
  apply NoDup_cons in Hnd as [Hq Hnd].
  destruct (String.eqb_spec (proxy q) k) as [E|E].
  - injection H as <-. cbn. congruence.
  - destruct (findIndex _ l) as [j|] eqn:Hj; cbn in H; [|discriminate].
    injection H as <-. cbn. apply not_elem_of_cons. split; [congruence|].
    by apply IH.
Qed.

Lemma delete_keys_NoDup (l : list Proxy) i :
  NoDup (map proxy l) -> NoDup (map proxy (delete i l)).
Proof.
  revert i. induction l as [|q l IH]; intros i Hnd; [destruct i; exact Hnd|].
  apply NoDup_cons in Hnd as [Hq Hnd]. destruct i as [|i]; cbn; [exact Hnd|].
  apply NoDup_cons. split; [|by apply IH].
  intros Hin. apply Hq. apply list_elem_of_fmap in Hin as (x & -> & Hx).
  apply list_elem_of_fmap. exists x. split; [reflexivity|].
  eapply elem_of_sublist; [exact Hx|]. apply sublist_delete.
Qed.

(** X4.  When the key derived from the argument is in the pool, [removeProxy]
    removes the first endpoint with that key and the key's statistics,
    keeps the statistics of every other key, persists the shortened pool
    and schedules the statistics write; with distinct keys the key is
    gone from the pool. *)
Theorem removeProxy_present (s : string) (w : World) :
  removalKey s ∈ map proxy (proxyList w) ->
  let w' := snd (removeProxy s w) in
  fst (removeProxy s w) = true /\
  S (length (proxyList w')) = length (proxyList w) /\
  proxyStats w' !! removalKey s = None /\
  (forall k, k <> removalKey s -> proxyStats w' !! k = proxyStats w !! k) /\
  storedList (localStorage w')
    = Some (LArray (map (fun q => JString (proxyToString q)) (proxyList w'))) /\
  statsSaveScheduled w' = true /\
  (NoDup (map proxy (proxyList w)) -> removalKey s ∉ map proxy (proxyList w')).
Proof.
  intros Hin. unfold removeProxy.
  destruct (findIndex _ (proxyList w)) as [i|] eqn:Hi.
  - cbn [fst snd]. cbn. destruct (findIndex_some _ _ _ Hi) as (x & Hx & _ & _).
    repeat split.
    + rewrite length_delete by eauto. apply lookup_lt_Some in Hx. lia.
    + apply lookup_delete_eq.
    + intros k Hk. by apply lookup_delete_ne.
    + intros Hnd. by apply delete_keys_notin.
  - apply findIndex_none, existsb_key_false in Hi. contradiction.
Qed.

Lemma removeProxy_present_witness :
  fst (removeProxy "38.154.227.167:5868:other:credentials"
         (loadProxyList (initialWorld true))) = true.
Proof.
  apply (removeProxy_present "38.154.227.167:5868:other:credentials"
           (loadProxyList (initialWorld true))).
  vm_compute. apply list_elem_of_here.
Defined.

(** X5.  When the derived key is not in the pool, [removeProxy] returns
    [false] and changes nothing; in particular statistics left under
    that key stay. *)
Theorem removeProxy_absent (s : string) (w : World) :
  removalKey s ∉ map proxy (proxyList w) ->
  removeProxy s w = (false, w).
Proof.
  intros Hnin. unfold removeProxy.
  apply existsb_key_false, findIndex_none in Hnin. rewrite Hnin. reflexivity.
Qed.

Lemma removeProxy_absent_witness :
  removeProxy "10.9.9.9:1" worldOneFailure = (false, worldOneFailure).
Proof.
  apply (removeProxy_absent "10.9.9.9:1" worldOneFailure).
  cbn. apply not_elem_of_nil.
Defined.

(** X6.  Removing a string right after it was added as a new endpoint gives
    the pool back as it was. *)
Theorem removeProxy_after_addProxy (s : string) (p : Proxy) (w : World) :
  parseProxy s = Normal p ->
  proxy p ∉ map proxy (proxyList w) ->
  fst (removeProxy s (snd (addProxy s w))) = true /\
  proxyList (snd (removeProxy s (snd (addProxy s w)))) = proxyList w.
Proof.
  intros Hp Hfresh. apply existsb_key_false in Hfresh as Hex.
  unfold addProxy. rewrite Hp, Hex. cbn [snd].
  unfold removeProxy. rewrite (removalKey_parsed s p Hp).
  cbn [proxyList saveProxyList setLocalStorage setProxyList].
  rewrite (findIndex_snoc _ _ _ Hex (String.eqb_refl _)). cbn.
  split; [reflexivity|].
  rewrite delete_middle. apply app_nil_r.
Qed.

Lemma removeProxy_after_addProxy_witness :
  fst (removeProxy "10.0.0.9:3128:bob:pw"
         (snd (addProxy "10.0.0.9:3128:bob:pw" worldWithBadEntry))) = true.
Proof.
  apply (removeProxy_after_addProxy "10.0.0.9:3128:bob:pw"
           (mkProxy "10.0.0.9" (Num 3128) (Some "bob") (Some "pw") "10.0.0.9:3128")
           worldWithBadEntry).
  - reflexivity.
  - cbn. apply not_elem_of_nil.
Defined.

(** X7.  [addProxy] and [removeProxy] keep the keys of the pool pairwise
    distinct, whatever string they are given. *)
Theorem administration_keeps_keys_distinct (s : string) (w : World) :
  NoDup (map proxy (proxyList w)) ->
  NoDup (map proxy (proxyList (snd (addProxy s w)))) /\
  NoDup (map proxy (proxyList (snd (removeProxy s w)))).
Proof.
  intros Hnd. split.
  - unfold addProxy. destruct (parseProxy s) as [p|]; [|exact Hnd].
    destruct (existsb _ (proxyList w)) eqn:He; [exact Hnd|].
    apply existsb_key_false in He. cbn. rewrite map_app. cbn.
    apply NoDup_app. repeat split; [exact Hnd| |apply NoDup_singleton].
    intros k Hk Hk'. apply list_elem_of_singleton in Hk'. congruence.
  - unfold removeProxy. destruct (findIndex _ (proxyList w)); [|exact Hnd].
    cbn. by apply delete_keys_NoDup.
Qed.

Lemma administration_keeps_keys_distinct_witness :
  NoDup (map proxy (proxyList (snd (addProxy "10.0.0.9:3128" worldWithBadEntry)))) /\
  NoDup (map proxy (proxyList (snd (removeProxy "10.0.0.9:3128" worldWithBadEntry)))).
Proof.
  apply (administration_keeps_keys_distinct "10.0.0.9:3128" worldWithBadEntry).
  cbn. apply NoDup_nil_2.
Defined.

Lemma canonical_reparse (p : Proxy) :
  canonicalEndpoint p ->
  exists q, parseProxy (proxyToString p) = Normal q /\ reloadedAs p q.
Proof.
  intros [[s Hs] Hkey]. pose proof (split_fields_noColon s) as Hf.
  revert Hs Hkey. unfold parseProxy at 1.
  destruct (split ":" s) as [|a [|b [|c [|d [|e l]]]]]; try discriminate;
    intros [= <-]; cbn [proxy host port]; intros Hk%append_cancel_l%append_cancel_l;
    unfold proxyToString, reloadedAs;
    cbn [proxy host port username password truthy default andb];
    rewrite <- Hk;
    repeat match goal with
           | H : Forall _ (_ :: _) |- _ => inversion H; subst; clear H
           end.
  - unfold parseProxy. rewrite (split_app a b), (split_noColon b) by assumption.
    eexists. split; [reflexivity|]. cbn. auto.
  - destruct (negb (String.eqb c "") && negb (String.eqb d "")) eqn:Ht.
    + unfold parseProxy, id.
      rewrite (split_app a), (split_app b), (split_app c), (split_noColon d) by assumption.
      eexists. split; [reflexivity|]. cbn. auto.
    + unfold parseProxy. rewrite (split_app a b), (split_noColon b) by assumption.
      eexists. split; [reflexivity|]. cbn. auto.
Qed.

Lemma mapM_reparse (l : list Proxy) :
  Forall canonicalEndpoint l ->
  exists l', mapM parseStored (map (fun q => JString (proxyToString q)) l) = Normal l' /\
             Forall2 reloadedAs l l'.
Proof.
  induction 1 as [|p l Hp Hl (l' & Hl' & HR)]; cbn; [exists []; auto|].
  destruct (canonical_reparse p Hp) as (q & -> & Hq). cbn. rewrite Hl'. cbn.
  exists (q :: l'). auto.
Qed.

(** X8.  Saving a non-empty pool of endpoints with canonical ports and
    loading it again gives, position by position, endpoints with the
    same key, host and port; credentials come back when user name and
    password are both non-empty and are dropped otherwise. *)
Theorem save_then_load (w : World) :
  proxyList w <> [] ->
  Forall canonicalEndpoint (proxyList w) ->
  Forall2 reloadedAs (proxyList w) (proxyList (loadProxyList (saveProxyList w))).
Proof.
  intros Hne Hcan. destruct (mapM_reparse _ Hcan) as (l' & Hl' & HR).
  unfold loadProxyList, loadProxyList_try.
  cbn [saveProxyList setLocalStorage localStorage storedList].
  rewrite length_map.
  destruct (proxyList w) as [|p l] eqn:E; [congruence|].
  cbn [length Nat.ltb Nat.leb]. rewrite Hl'. cbn. exact HR.
Qed.

Lemma save_then_load_witness :
  Forall2 reloadedAs
    (proxyList (snd (addProxy "10.0.0.9:3128:bob:" worldWithBadEntry)))
    (proxyList (loadProxyList
                  (saveProxyList (snd (addProxy "10.0.0.9:3128:bob:" worldWithBadEntry))))).
Proof.
  apply (save_then_load (snd (addProxy "10.0.0.9:3128:bob:" worldWithBadEntry))).
  - discriminate.
  - repeat constructor. exists "10.0.0.9:3128:bob:". reflexivity.
Defined.

(** ** Weighted selector: what it returns *)

Section Draw.
Local Open Scope Q_scope.

Lemma weightOf_floor stats now : (1 # 100) <= weightOf stats now.
Proof. unfold weightOf. apply Q.le_max_r. Qed.

Lemma drawWeighted_member (items : list (Proxy * Q)) (random : Q) (p : Proxy) :
  drawWeighted items random = Some p -> In p (map fst items).
Proof.
  revert random. induction items as [|[q weight] rest IH]; intros random; cbn; [discriminate|].
  destruct (Qle_bool _ _); [intros [= ->]; auto|eauto].
Qed.

Lemma randomElement_member {A} (l : list A) (r : Q) (x : A) :
  randomElement l r = Some x -> In x l.
Proof.
  unfold randomElement. destruct (_ <? _)%Z; [discriminate|].
  intros H. apply list_elem_of_In. eapply list_elem_of_lookup_2. exact H.
Qed.


End Draw.



Lemma notExcluded_spec (excl : list string) (q : Proxy) :
  negb (existsb (String.eqb (proxy q)) excl) = true <-> ~ In (proxy q) excl.
Proof.
  rewrite negb_true_iff. split.
  - intros Hf Hin.
    assert (Ht : existsb (String.eqb (proxy q)) excl = true).
    { apply existsb_exists. exists (proxy q). split; [exact Hin|apply String.eqb_refl]. }
    congruence.
  - intros Hn. destruct (existsb _ excl) eqn:He; [|reflexivity].
    apply existsb_exists in He as (k & Hk & Hkq). apply String.eqb_eq in Hkq.
    subst k. contradiction.
Qed.

(** The selected endpoint comes from the candidates that are not
    excluded when there is one, from the whole pool otherwise. *)
Lemma selectRandomProxy_source (excl : list string) (now : Z) (r1 r2 : Q)
    (w w' : World) (p : Proxy) :
  selectRandomProxy excl now r1 r2 w = (w', Some p) ->
  let available :=
    List.filter (fun q => negb (existsb (String.eqb (proxy q)) excl)) (proxyList w') in
  In p (if (length available =? 0)%nat then proxyList w' else available).
Proof.
  unfold selectRandomProxy.
  set (w1 := ensureProxyDataLoaded w).
  destruct (length (proxyList w1) =? 0)%nat; [discriminate|].
  destruct (length (List.filter _ (proxyList w1)) =? 0)%nat eqn:Hav.
  - intros [= <- Hsel]. cbn zeta. rewrite Hav. by eapply randomElement_member.
  - destruct (drawWeighted _ _) as [q|] eqn:Hd.
    + intros [= <- ->]. cbn zeta. rewrite Hav. apply drawWeighted_member in Hd.
      rewrite map_map in Hd. cbn in Hd. by rewrite map_id in Hd.
    + intros [= <- Hsel]. cbn zeta. rewrite Hav. by eapply randomElement_member.
Qed.

(** X10.  Whatever the random values, a selected endpoint belongs to the pool,
    and it is not one of the excluded keys as long as the pool has an
    endpoint that is not excluded. *)
Theorem selectRandomProxy_respects_exclusion (excl : list string) (now : Z) (r1 r2 : Q)
    (w w' : World) (p : Proxy) :
  selectRandomProxy excl now r1 r2 w = (w', Some p) ->
  In p (proxyList w') /\
  ((exists q, In q (proxyList w') /\ ~ In (proxy q) excl) -> ~ In (proxy p) excl).
Proof.
  intros Hsel. pose proof (selectRandomProxy_source _ _ _ _ _ _ _ Hsel) as Hsrc.
  cbn zeta in Hsrc.
  destruct (length (List.filter _ (proxyList w')) =? 0)%nat eqn:Hav.
  - split; [exact Hsrc|]. intros (q & Hq & Hnq). exfalso. apply Nat.eqb_eq in Hav.
    assert (Hin : In q (List.filter
                          (fun q => negb (existsb (String.eqb (proxy q)) excl))
                          (proxyList w')))
      by (apply filter_In; split; [exact Hq|by apply notExcluded_spec]).
    destruct (List.filter _ (proxyList w')); [destruct Hin|discriminate].
  - apply filter_In in Hsrc as [Hp Hk]. split; [exact Hp|]. intros _.
    by apply notExcluded_spec.
Qed.

Lemma selectRandomProxy_respects_exclusion_witness :
  In (mkProxy "198.23.239.134" (Num 6540) (Some "kdzrrkqv") (Some "763ww9x8x6x3")
        "198.23.239.134:6540")
     (proxyList (ensureProxyDataLoaded (initialWorld true))).
Proof.
  apply (selectRandomProxy_respects_exclusion ["38.154.227.167:5868"] 1000 0 0
           (initialWorld true) (ensureProxyDataLoaded (initialWorld true))).
  vm_compute. reflexivity.
Defined.

(** ** Health tracker: ranges of the counters *)

Lemma updateProxyStats_range k success rt blocked tU tB w :
  (forall j s, proxyStats w !! j = Some s -> statsInRange s) ->
  forall j s, proxyStats (updateProxyStats k success rt blocked tU tB w) !! j = Some s ->
              statsInRange s.
Proof.
  intros Hinv j s. destruct (decide (j = k)) as [->|Hne].
  - unfold updateProxyStats. cbn. rewrite lookup_insert_eq. intros [= <-].
    assert (H0 : statsInRange (default freshStats (proxyStats w !! k))).
    { destruct (proxyStats w !! k) as [s0|] eqn:E; cbn; [eauto|].
      unfold statsInRange; cbn. lia. }
    destruct H0 as (Hs & Hf & Hb & Hsf & Hsb).
    destruct success, blocked; unfold statsInRange; cbn; lia.
  - rewrite updateProxyStats_lookup by done. apply Hinv.
Qed.

(** X11.  Every sequence of [updateProxyStats] calls keeps, for every key, the
    counters in range: successes, failures and blocks are not negative,
    and successes plus failures, like successes plus blocks, never exceed
    the number of requests. *)
Theorem counters_stay_in_range (calls : list StatsCall) (w : World) :
  (forall k s, proxyStats w !! k = Some s -> statsInRange s) ->
  forall k s, proxyStats (fold_left applyStatsCall calls w) !! k = Some s ->
              statsInRange s.
Proof.
  revert w. induction calls as [|c calls IH]; intros w Hw; cbn [fold_left]; [exact Hw|].
  apply IH. unfold applyStatsCall. apply updateProxyStats_range. exact Hw.
Qed.

Lemma counters_stay_in_range_witness : statsInRange statsAfterTwoSuccesses.
Proof.
  apply (counters_stay_in_range
           [mkStatsCall "10.0.0.1:8080" true 1 false 1000 1000;
            mkStatsCall "10.0.0.1:8080" true 2 false 2000 2000]
           (initialWorld true)) with (k := "10.0.0.1:8080").
  - intros k s H. simpl in H. rewrite lookup_empty in H. discriminate H.
  - reflexivity.
Defined.

(** ** Weights: order and range *)

Section WeightOrder.
Local Open Scope Q_scope.

Lemma Qdiv_le_compat (a b d : Q) : a <= b -> 0 < d -> a / d <= b / d.
Proof.
  intros Hab Hd. apply Qle_shift_div_l; [exact Hd|].
  assert (E : a / d * d == a) by (field; lra). rewrite E. exact Hab.
Qed.

Lemma Qdiv_ge_one (x d : Q) : 0 <= x -> 1 <= d -> 0 <= x / d /\ x / d <= x.
Proof.
  intros Hx Hd. split.
  - apply Qle_shift_div_l; lra.
  - apply Qle_shift_div_r; [lra|nra].
Qed.

Lemma inject_Z_ge_one z : (0 < z)%Z -> 1 <= inject_Z z.
Proof. intros H. change 1 with (inject_Z 1). rewrite <- Zle_Qle. lia. Qed.

End WeightOrder.

(** X12.  Between two endpoints that differ only in their number of successes,
    the one with more successes never has the lower weight. *)
Theorem weight_monotone_in_successes (s : ProxyStats) (n1 n2 now : Z) :
  n1 <= n2 ->
  (weightOf (Some (withSuccessfulRequests n1 s)) now
   <= weightOf (Some (withSuccessfulRequests n2 s)) now)%Q.
Proof.
  intros Hn. unfold weightOf. apply Q.max_le_compat_r.
  unfold rawWeight, withSuccessfulRequests.
  cbn [totalRequests successfulRequests failures blockedCount lastBlocked].
  destruct (0 <? totalRequests s) eqn:Ht; [|apply Qle_refl].
  apply Z.ltb_lt in Ht.
  assert (H0 : (inject_Z n1 / inject_Z (totalRequests s) * 10
                <= inject_Z n2 / inject_Z (totalRequests s) * 10)%Q).
  { apply Qmult_le_compat_r; [|discriminate].
    apply Qdiv_le_compat; [by rewrite <- Zle_Qle|by apply inject_Z_pos]. }
  assert (H1 : ((if 0 <? failures s
                 then inject_Z n1 / inject_Z (totalRequests s) * 10 / inject_Z (failures s * 2)
                 else inject_Z n1 / inject_Z (totalRequests s) * 10)
                <= (if 0 <? failures s
                    then inject_Z n2 / inject_Z (totalRequests s) * 10 / inject_Z (failures s * 2)
                    else inject_Z n2 / inject_Z (totalRequests s) * 10))%Q).
  { destruct (0 <? failures s) eqn:Hf; [|exact H0].
    apply Z.ltb_lt in Hf. apply Qdiv_le_compat; [exact H0|apply inject_Z_pos; lia]. }
  destruct (0 <? blockedCount s) eqn:Hb; [|exact H1].
  apply Z.ltb_lt in Hb.
  destruct (now - lastBlocked s <? blockCooldown);
    (apply Qdiv_le_compat; [exact H1|apply inject_Z_pos; lia]).
Qed.

Lemma weight_monotone_in_successes_witness :
  (weightOf (Some (withSuccessfulRequests 3 statsBlockedOnce)) 2000
   <= weightOf (Some (withSuccessfulRequests 9 statsBlockedOnce)) 2000)%Q.
Proof.
  apply (weight_monotone_in_successes statsBlockedOnce 3 9 2000). lia.
Defined.

(** X13.  With counters in range, a weight lies between the 0.01 floor and
    10. *)
Theorem weight_in_range (s : ProxyStats) (now : Z) :
  statsInRange s ->
  (1 # 100 <= weightOf (Some s) now)%Q /\ (weightOf (Some s) now <= 10)%Q.
Proof.
  intros (Hs & Hf & Hb & Hsf & Hsb). split; [apply weightOf_floor|].
  unfold weightOf. apply Q.max_lub; [|discriminate].
  unfold rawWeight.
  destruct (0 <? totalRequests s) eqn:Ht; [|discriminate].
  apply Z.ltb_lt in Ht.
  assert (H0 : (0 <= inject_Z (successfulRequests s) / inject_Z (totalRequests s) * 10
                /\ inject_Z (successfulRequests s) / inject_Z (totalRequests s) * 10 <= 10)%Q).
  { pose proof (inject_Z_pos _ Ht) as HT. pose proof (inject_Z_nonneg _ Hs) as HS.
    assert (HST : (inject_Z (successfulRequests s) <= inject_Z (totalRequests s))%Q)
      by (rewrite <- Zle_Qle; lia).
    assert (Hr : (0 <= inject_Z (successfulRequests s) / inject_Z (totalRequests s)
                  /\ inject_Z (successfulRequests s) / inject_Z (totalRequests s) <= 1)%Q).
    { split; [apply Qle_shift_div_l; lra|apply Qle_shift_div_r; lra]. }
    lra. }
  set (w0 := (inject_Z (successfulRequests s) / inject_Z (totalRequests s) * 10)%Q) in *.
  assert (H1 : (0 <= (if 0 <? failures s then w0 / inject_Z (failures s * 2) else w0)
                /\ (if 0 <? failures s then w0 / inject_Z (failures s * 2) else w0) <= 10)%Q).
  { destruct (0 <? failures s) eqn:Hf0; [|exact H0]. apply Z.ltb_lt in Hf0.
    assert (Hd : (1 <= inject_Z (failures s * 2))%Q) by (apply inject_Z_ge_one; lia).
    destruct (Qdiv_ge_one w0 (inject_Z (failures s * 2)) (proj1 H0) Hd) as [Ha Hb'].
    split; [exact Ha|]. destruct H0. eapply Qle_trans; eauto. }
  set (w1 := if 0 <? failures s then _ else _) in *.
  destruct (0 <? blockedCount s) eqn:Hb0; [|apply H1]. apply Z.ltb_lt in Hb0.
  destruct H1 as [H1a H1b].
  destruct (now - lastBlocked s <? blockCooldown).
  - assert (Hd : (1 <= inject_Z (blockedCount s * 10))%Q) by (apply inject_Z_ge_one; lia).
    destruct (Qdiv_ge_one w1 (inject_Z (blockedCount s * 10)) H1a Hd) as [_ Hle].
    eapply Qle_trans; eauto.
  - assert (Hd : (1 <= inject_Z (blockedCount s * 2))%Q) by (apply inject_Z_ge_one; lia).
    destruct (Qdiv_ge_one w1 (inject_Z (blockedCount s * 2)) H1a Hd) as [_ Hle].
    eapply Qle_trans; eauto.
Qed.

Lemma weight_in_range_witness :
  (1 # 100 <= weightOf (Some statsBlockedOnce) 2000)%Q /\
  (weightOf (Some statsBlockedOnce) 2000 <= 10)%Q.
Proof.
  apply (weight_in_range statsBlockedOnce 2000). unfold statsInRange. cbn. lia.
Defined.

(** ** Reporting *)

Lemma summarizeOne_step stats now summary p :
  let summary' := summarizeOne stats now summary p in
  totalProxies summary' = totalProxies summary /\
  (workingProxies summary' + failedProxies summary' + blockedProxies summary'
   <= S (workingProxies summary + failedProxies summary + blockedProxies summary))%nat /\
  (workingProxies summary + failedProxies summary + blockedProxies summary
   <= workingProxies summary' + failedProxies summary' + blockedProxies summary')%nat /\
  proxies summary' = (proxies summary ++ [proxyInfoOf p (stats !! proxy p)])%list.
Proof.
  unfold summarizeOne. cbn.
  destruct (categorize (default freshStats (stats !! proxy p)) now); repeat split; lia.
Qed.

Lemma summarize_fold stats now (l : list Proxy) summary :
  let summary' := fold_left (summarizeOne stats now) l summary in
  totalProxies summary' = totalProxies summary /\
  (workingProxies summary' + failedProxies summary' + blockedProxies summary'
   <= workingProxies summary + failedProxies summary + blockedProxies summary + length l)%nat /\
  map infoProxy (proxies summary') = (map infoProxy (proxies summary) ++ map proxy l)%list.
Proof.
  revert summary. induction l as [|p l IH]; intros summary; cbn [fold_left].
  - cbn. rewrite app_nil_r. repeat split; lia.
  - destruct (summarizeOne_step stats now summary p) as (Ht & Hle & _ & Hp).
    destruct (IH (summarizeOne stats now summary p)) as (Ht' & Hle' & Hp').
    cbn zeta in *. rewrite Ht', Ht, Hp', Hp. rewrite map_app. cbn [map length].
    rewrite <- app_assoc. repeat split; try lia; reflexivity.
Qed.

(** X14.  The summary lists the endpoints of the pool in pool order, reports
    the pool size as total, and counts every endpoint in at most one of
    the three categories. *)
Theorem summary_counts (now : Z) (w : World) :
  let '(w', summary) := getProxyStatsSummary now w in
  totalProxies summary = length (proxyList w') /\
  map infoProxy (proxies summary) = map proxy (proxyList w') /\
  (workingProxies summary + failedProxies summary + blockedProxies summary
   <= totalProxies summary)%nat.
Proof.
  unfold getProxyStatsSummary.
  set (w1 := ensureProxyDataLoaded w).
  destruct (summarize_fold (proxyStats w1) now (proxyList w1)
              {| totalProxies := length (proxyList w1); workingProxies := 0;
                 failedProxies := 0; blockedProxies := 0; proxies := [] |})
    as (Ht & Hle & Hp).
  cbn zeta in *. cbn in Ht, Hle, Hp. rewrite Ht. repeat split; try lia; exact Hp.
Qed.

(** X15.  An endpoint that [markProxyAsBlocked] has just marked is reported as
    blocked during the one-hour cooldown, and as failed (not working)
    right after it, because of the four failures it was charged. *)
Theorem marked_endpoint_category (k : string) (tUsed tBlocked t1 t2 t3 now : Z)
    (w : World) :
  let s0 := default freshStats (proxyStats w !! k) in
  0 <= blockedCount s0 -> 0 <= failures s0 ->
  exists s1,
    proxyStats (markProxyAsBlocked k tUsed tBlocked t1 t2 t3 w) !! k = Some s1 /\
    (now - tBlocked < blockCooldown -> categorize s1 now = Blocked) /\
    (blockCooldown <= now - tBlocked -> categorize s1 now = Failed).
Proof.
  intros s0 Hb Hf. rewrite markProxyAsBlocked_lookup. fold s0. cbn zeta.
  eexists. split; [reflexivity|]. unfold categorize.
  cbn [blockedCount lastBlocked failures].
  assert (Hb1 : (0 <? blockedCount s0 + 1) = true) by (apply Z.ltb_lt; lia).
  assert (Hf4 : (failures s0 + 4 <? 3) = false) by (apply Z.ltb_ge; lia).
  rewrite Hb1, Hf4. split; intros H.
  - apply Z.ltb_lt in H. rewrite H. reflexivity.
  - apply Z.ltb_ge in H. rewrite H. reflexivity.
Qed.

Lemma marked_endpoint_category_witness :
  exists s1,
    proxyStats (markProxyAsBlocked "10.0.0.1:8080" 2000 2000 2001 2002 2003
                  worldOneFailure) !! "10.0.0.1:8080" = Some s1 /\
    (2500 - 2000 < blockCooldown -> categorize s1 2500 = Blocked) /\
    (blockCooldown <= 2500 - 2000 -> categorize s1 2500 = Failed).
Proof.
  apply (marked_endpoint_category "10.0.0.1:8080" 2000 2000 2001 2002 2003 2500
           worldOneFailure); vm_compute; discriminate.
Defined.

Lemma loadProxyList_storedStats w :
  storedStats (localStorage (loadProxyList w)) = storedStats (localStorage w).
Proof.
  unfold loadProxyList, loadProxyList_try.
  destruct (storedList (localStorage w)) as [[| | |elems]|]; try reflexivity.
  destruct (0 <? length elems)%nat; [|reflexivity].
  destruct (mapM parseStored elems); reflexivity.
Qed.

Lemma summarize_no_stats now (l : list Proxy) summary :
  let summary' := fold_left (summarizeOne ∅ now) l summary in
  workingProxies summary' = workingProxies summary /\
  failedProxies summary' = failedProxies summary /\
  blockedProxies summary' = blockedProxies summary /\
  (Forall (fun i => successRate i = 0 /\ infoTotalRequests i = 0) (proxies summary) ->
   Forall (fun i => successRate i = 0 /\ infoTotalRequests i = 0) (proxies summary')).
Proof.
  revert summary. induction l as [|p l IH]; intros summary; cbn [fold_left]; [auto|].
  assert (Hstep : workingProxies (summarizeOne ∅ now summary p) = workingProxies summary /\
                  failedProxies (summarizeOne ∅ now summary p) = failedProxies summary /\
                  blockedProxies (summarizeOne ∅ now summary p) = blockedProxies summary /\
                  proxies (summarizeOne ∅ now summary p)
                  = (proxies summary ++ [proxyInfoOf p None])%list).
  { unfold summarizeOne. rewrite lookup_empty. cbn. auto. }
  destruct Hstep as (Sw & Sf & Sb & Sp).
  destruct (IH (summarizeOne ∅ now summary p)) as (Hw & Hf & Hb & Hall).
  cbn zeta in *. rewrite Hw, Hf, Hb, Sw, Sf, Sb. repeat split.
  intros Hs. apply Hall. rewrite Sp.
  apply Forall_app. split; [exact Hs|]. repeat constructor.
Qed.

(** X16.  After [resetProxyStats] the summary counts no endpoint as working,
    failed or blocked and reports no request for any endpoint, also when
    the pool has to be loaded first. *)
Theorem summary_after_reset (now : Z) (w : World) :
  let summary := snd (getProxyStatsSummary now (resetProxyStats w)) in
  workingProxies summary = 0%nat /\ failedProxies summary = 0%nat /\
  blockedProxies summary = 0%nat /\
  Forall (fun i => successRate i = 0 /\ infoTotalRequests i = 0) (proxies summary).
Proof.
  unfold getProxyStatsSummary. cbn [snd].
  assert (Hst : proxyStats (ensureProxyDataLoaded (resetProxyStats w)) = ∅).
  { unfold ensureProxyDataLoaded.
    destruct (length (proxyList (resetProxyStats w)) =? 0)%nat; [|reflexivity].
    unfold loadProxyStats. rewrite loadProxyList_storedStats. reflexivity. }
  rewrite Hst.
  destruct (summarize_no_stats now (proxyList (ensureProxyDataLoaded (resetProxyStats w)))
              {| totalProxies := length (proxyList (ensureProxyDataLoaded (resetProxyStats w)));
                 workingProxies := 0; failedProxies := 0; blockedProxies := 0;
                 proxies := [] |}) as (Hw & Hf & Hb & Hall).
  cbn zeta in *. rewrite Hw, Hf, Hb. repeat split. apply Hall. constructor.
Qed.

(** ** Enabling and probing *)

(** X17.  [enableProxyForAutomatedQueries] returns [true] exactly when the
    layer was disabled; afterwards the layer is enabled, the pool is
    loaded, the 405 streak is what it was, and a second call returns
    [false] without changing anything. *)
Theorem enableProxyForAutomatedQueries_effect (w : World) :
  let w' := snd (enableProxyForAutomatedQueries w) in
  fst (enableProxyForAutomatedQueries w) = negb (isProxyEnabled w) /\
  isProxyEnabled w' = true /\
  (isProxyEnabled w = false -> proxyList w' <> []) /\
  http405Count w' = http405Count w /\
  enableProxyForAutomatedQueries w' = (false, w').
Proof.
  unfold enableProxyForAutomatedQueries.
  destruct (isProxyEnabled w) eqn:He; cbn [negb fst snd].
  - rewrite He. cbn. repeat split; auto; discriminate.
  - destruct (ensureProxyDataLoaded_frame w) as [Hc _].
    pose proof (ensureProxyDataLoaded_nonempty w) as Hne.
    repeat split; auto.
Qed.

(** X18.  Re-enabling does not clear the streak: once the streak is one short
    of [MAX_405_ERRORS] or beyond, as after a trip, the layer can be
    enabled again, but the first 405 answer to a proxied request disables
    it again. *)
Theorem reenabled_layer_trips_on_first_405 (w : World) (options : Options)
    (c : Call) (tk : Tick) :
  (MAX_405_ERRORS <= S (http405Count w))%nat ->
  proxiedStatus c tk = Some 405 ->
  let w1 := snd (enableProxyForAutomatedQueries w) in
  isProxyEnabled w1 = true /\
  isProxyEnabled (deliverShared w1 (HandlerRuns options c tk)) = false.
Proof.
  intros Hmax Hst.
  assert (Hen : isProxyEnabled (snd (enableProxyForAutomatedQueries w)) = true /\
                http405Count (snd (enableProxyForAutomatedQueries w)) = http405Count w).
  { unfold enableProxyForAutomatedQueries.
    destruct (isProxyEnabled w) eqn:He; cbn [negb snd]; [auto|].
    destruct (ensureProxyDataLoaded_frame w) as [Hc _]. split; [reflexivity|exact Hc]. }
  destruct Hen as [Hen Hc]. cbn zeta. split; [exact Hen|].
  unfold deliverShared.
  pose proof (deliver_circuit options
                (withWorld c (snd (enableProxyForAutomatedQueries w))) tk) as H.
  change (proxiedStatus (withWorld c (snd (enableProxyForAutomatedQueries w))) tk)
    with (proxiedStatus c tk) in H.
  rewrite Hst in H. cbn [Z.eqb Pos.eqb world withWorld] in H. cbn zeta in H.
  destruct H as [_ ->]. rewrite Hc.
  apply Nat.leb_le in Hmax. rewrite Hmax. reflexivity.
Qed.

Lemma reenabled_layer_trips_on_first_405_witness :
  isProxyEnabled (snd (enableProxyForAutomatedQueries
                         (setHttp405Count 5 (initialWorld false)))) = true /\
  isProxyEnabled
    (deliverShared (snd (enableProxyForAutomatedQueries
                           (setHttp405Count 5 (initialWorld false))))
       (HandlerRuns getOptions
          (makeProxyRequest getOptions (readingsAt 1000) (initialWorld true))
          (tickAt (OnLoad (responseWith 405)) 1100))) = false.
Proof.
  apply (reenabled_layer_trips_on_first_405 (setHttp405Count 5 (initialWorld false))
           getOptions
           (makeProxyRequest getOptions (readingsAt 1000) (initialWorld true))
           (tickAt (OnLoad (responseWith 405)) 1100)).
  - vm_compute. lia.
  - reflexivity.
Defined.

Lemma count200_le reports i n : (count200 reports i n <= n)%nat.
Proof.
  revert i. induction n as [|n IH]; intros i; cbn; [lia|].
  specialize (IH (S i)).
  destruct (probeOutcome (reports i)) as [r| | |]; try lia.
  destruct (status r =? 200); lia.
Qed.

Lemma probeOne_effect penalty p r n w :
  let '(n', w') := probeOne penalty p r (n, w) in
  n' = (n + count200 (fun _ => r) 0 1)%nat /\
  http405Count w' = http405Count w /\
  isProxyEnabled w' = isProxyEnabled w /\
  proxyList w' = proxyList w /\
  forall k, totalRequests (default freshStats (proxyStats w' !! k))
            = totalRequests (default freshStats (proxyStats w !! k))
              + (if String.eqb (proxy p) k then 1 else 0).
Proof.
  assert (Hreq : forall success rt tU k,
             totalRequests (default freshStats
                              (proxyStats (updateProxyStats (proxy p) success rt false tU tU w) !! k))
             = totalRequests (default freshStats (proxyStats w !! k))
               + (if String.eqb (proxy p) k then 1 else 0)).
  { intros success rt tU k. unfold updateProxyStats. cbn.
    destruct (String.eqb_spec (proxy p) k) as [<-|Hne].
    - rewrite lookup_insert_eq. destruct success; reflexivity.
    - rewrite lookup_insert_ne by done. lia. }
  unfold probeOne. cbn [count200].
  destruct (probeOutcome r) as [resp| | |]; [destruct (status resp =? 200)|..];
    repeat split; try lia; try apply Hreq.
Qed.

Lemma probeLoop_effect penalty ps i reports n w :
  let '(n', w') := probeLoop penalty ps i reports (n, w) in
  n' = (n + count200 reports i (length ps))%nat /\
  http405Count w' = http405Count w /\
  isProxyEnabled w' = isProxyEnabled w /\
  proxyList w' = proxyList w /\
  forall k, totalRequests (default freshStats (proxyStats w' !! k))
            = totalRequests (default freshStats (proxyStats w !! k)) + probesOf k ps.
Proof.
  revert i n w. induction ps as [|p ps IH]; intros i n w; cbn [probeLoop length count200].
  - repeat split; try lia. intros k. unfold probesOf. cbn. lia.
  - pose proof (probeOne_effect penalty p (reports i) n w) as H1.
    destruct (probeOne penalty p (reports i) (n, w)) as [n1 w1].
    destruct H1 as (Hn1 & Hc1 & He1 & Hl1 & Hr1).
    specialize (IH (S i) n1 w1).
    destruct (probeLoop penalty ps (S i) reports (n1, w1)) as [n' w'].
    destruct IH as (Hn & Hc & He & Hl & Hr).
    cbn [count200] in Hn1.
    repeat split; try congruence.
    + rewrite Hn, Hn1. lia.
    + intros k. rewrite Hr, Hr1. unfold probesOf. cbn [List.filter].
      destruct (String.eqb (proxy p) k); cbn [length]; lia.
Qed.

(** X19.  Probing does not go through the circuit breaker: whatever the
    probes answer, 405 included, [testProxySubset] and [testAllProxies]
    leave the 405 streak and the enabled flag as they were. *)
Theorem probes_leave_circuit (count : Z) (reports : nat -> ProbeReport) (w : World) :
  (http405Count (snd (testProxySubset count reports w)) = http405Count w /\
   isProxyEnabled (snd (testProxySubset count reports w)) = isProxyEnabled w) /\
  (http405Count (snd (testAllProxies reports w)) = http405Count w /\
   isProxyEnabled (snd (testAllProxies reports w)) = isProxyEnabled w).
Proof.
  destruct (ensureProxyDataLoaded_frame w) as [Hc He].
  unfold testProxySubset, testAllProxies.
  destruct (negb (isProxyEnabled w)); [cbn; auto|]. split.
  - match goal with
    | |- context [probeLoop ?pen ?ps ?i ?r (?n, ?w0)] =>
        pose proof (probeLoop_effect pen ps i r n w0) as H;
        destruct (probeLoop pen ps i r (n, w0)) as [n' w']
    end.
    destruct H as (_ & Hc' & He' & _). cbn [snd]. split; congruence.
  - match goal with
    | |- context [probeLoop ?pen ?ps ?i ?r (?n, ?w0)] =>
        pose proof (probeLoop_effect pen ps i r n w0) as H;
        destruct (probeLoop pen ps i r (n, w0)) as [n' w']
    end.
    destruct H as (_ & Hc' & He' & _). cbn [snd]. split; congruence.
Qed.

(** X20.  With the layer enabled and a non-negative [count],
    [testProxySubset] probes the first [min(count, pool size)] endpoints
    of the loaded pool, and reports as passed the number of probes
    answered with status 200, which cannot exceed the number tested. *)
Theorem testProxySubset_result (count : Z) (reports : nat -> ProbeReport) (w : World) :
  isProxyEnabled w = true -> 0 <= count ->
  let n := Nat.min (Z.to_nat count) (length (proxyList (ensureProxyDataLoaded w))) in
  fst (testProxySubset count reports w)
    = Some {| tested := n; passed := count200 reports 0 n |} /\
  (count200 reports 0 n <= n)%nat /\
  proxyList (snd (testProxySubset count reports w))
    = proxyList (ensureProxyDataLoaded w).
Proof.
  intros He Hcount n. unfold testProxySubset. rewrite He. cbn [negb].
  set (w1 := ensureProxyDataLoaded w) in *.
  assert (Hslice : sliceTo (proxyList w1) (Z.min count (Z.of_nat (length (proxyList w1))))
                   = take n (proxyList w1)).
  { unfold sliceTo. destruct (_ <? 0) eqn:Hneg; [apply Z.ltb_lt in Hneg; lia|].
    f_equal. unfold n. lia. }
  rewrite Hslice.
  assert (Hlen : length (take n (proxyList w1)) = n) by (rewrite length_take; unfold n; lia).
  pose proof (probeLoop_effect 8000 (take n (proxyList w1)) 0 reports 0%nat w1) as H.
  destruct (probeLoop 8000 (take n (proxyList w1)) 0 reports (0%nat, w1)) as [n' w'].
  destruct H as (Hn & _ & _ & Hl & _). cbn [fst snd].
  rewrite Hlen in *. cbn in Hn. subst n'. repeat split; auto. apply count200_le.
Qed.

Lemma testProxySubset_result_witness :
  fst (testProxySubset 3 (fun i => probeAnswer (if (i =? 1)%nat then 200 else 405))
         (initialWorld true))
  = Some {| tested := 3; passed := 1 |}.
Proof.
  apply (testProxySubset_result 3 (fun i => probeAnswer (if (i =? 1)%nat then 200 else 405))
           (initialWorld true)); [reflexivity|lia].
Defined.

(** X21.  With the layer enabled, [testAllProxies] probes every endpoint of the
    loaded pool once: it reports the pool size as tested and the number
    of status-200 answers as passed, and charges each key one request
    per endpoint of the pool that has this key. *)
Theorem testAllProxies_result (reports : nat -> ProbeReport) (w : World) :
  isProxyEnabled w = true ->
  let w1 := ensureProxyDataLoaded w in
  let w' := snd (testAllProxies reports w) in
  fst (testAllProxies reports w)
    = Some {| tested := length (proxyList w1);
              passed := count200 reports 0 (length (proxyList w1)) |} /\
  proxyList w' = proxyList w1 /\
  forall k, totalRequests (default freshStats (proxyStats w' !! k))
            = totalRequests (default freshStats (proxyStats w1 !! k))
              + probesOf k (proxyList w1).
Proof.
  intros He w1 w'. unfold w', testAllProxies. rewrite He. cbn [negb]. fold w1.
  pose proof (probeLoop_effect 10000 (proxyList w1) 0 reports 0%nat w1) as H.
  destruct (probeLoop 10000 (proxyList w1) 0 reports (0%nat, w1)) as [n' w2].
  destruct H as (Hn & _ & _ & Hl & Hr). cbn [fst snd]. cbn in Hn. subst n'. auto.
Qed.

Lemma testAllProxies_result_witness :
  fst (testAllProxies (fun i => probeAnswer (if (i <? 10)%nat then 200 else 500))
         (initialWorld true))
  = Some {| tested := 18; passed := 10 |}.
Proof.
  apply (testAllProxies_result (fun i => probeAnswer (if (i <? 10)%nat then 200 else 500))
           (initialWorld true)). reflexivity.
Defined.

(** ** Executor: retries go to other endpoints *)

Lemma attemptedKeys_snoc (l : list Event) (f : InFlight) (r : Request) :
  attemptedKeys (l ++ [(f, r)])
  = (attemptedKeys l ++ match f with ViaProxy p _ => [proxy p] | _ => [] end)%list.
Proof.
  induction l as [|[g q] l IH]; cbn.
  - destruct f; reflexivity.
  - destruct g; cbn; rewrite IH; reflexivity.
Qed.

Section Distinct.
Variable pool : list Proxy.
Hypothesis pool_distinct : NoDup (map proxy pool).
Hypothesis pool_large : (MAX_PROXY_RETRIES <= length pool)%nat.

(** Fewer excluded keys than endpoints leave a candidate. *)
Lemma some_candidate_left (excl : list string) :
  (length excl < length pool)%nat ->
  List.filter (fun q => negb (existsb (String.eqb (proxy q)) excl)) pool <> [].
Proof.
  intros Hlt Hnil.
  assert (Hall : forall k, k ∈ map proxy pool -> k ∈ excl).
  { intros k Hk. apply list_elem_of_fmap in Hk as (q & -> & Hq).
    apply list_elem_of_In in Hq.
    destruct (existsb (String.eqb (proxy q)) excl) eqn:He.
    - apply existsb_exists in He as (k & Hk & Hkq). apply String.eqb_eq in Hkq.
      subst k. by apply list_elem_of_In.
    - exfalso.
      assert (Hin : In q (List.filter
                            (fun q => negb (existsb (String.eqb (proxy q)) excl)) pool))
        by (apply filter_In; rewrite He; auto).
      rewrite Hnil in Hin. destruct Hin. }
  pose proof (submseteq_length _ _ (NoDup_submseteq _ _ pool_distinct Hall)) as Hlen.
  rewrite length_map in Hlen. lia.
Qed.

Lemma attemptRequest_distinct options rd c :
  proxyList (ensureProxyDataLoaded (world c)) = pool ->
  (proxyList (world c) = pool \/ dispatched c = []) ->
  NoDup (attemptedKeys (dispatched c)) ->
  attemptedKeys (dispatched c) = excludedProxies c ->
  length (excludedProxies c) = attempt c ->
  distinctInvariant pool (attemptRequest options rd c).
Proof.
  intros Hpool Hsame Hnd Hkeys Hlen. unfold attemptRequest.
  cbn [attempt excludedProxies world dispatched].
  destruct (MAX_PROXY_RETRIES <? S (attempt c))%nat eqn:Hmax.
  - unfold distinctInvariant. cbn [dispatch world dispatched phase].
    rewrite attemptedKeys_snoc, app_nil_r.
    destruct Hsame as [Hs|Hs]; [auto|].
    exfalso. rewrite Hs in Hkeys. cbn in Hkeys. rewrite <- Hkeys in Hlen. cbn in Hlen.
    rewrite <- Hlen in Hmax. discriminate.
  - apply Nat.ltb_ge in Hmax.
    destruct (selectRandomProxy _ _ _ _ _) as [w1 [p|]] eqn:Hsel;
      pose proof (selectRandomProxy_world (excludedProxies c) (tSelect rd) (rnd1 rd)
                    (rnd2 rd) (world c)) as Hw; rewrite Hsel in Hw; cbn in Hw; subst w1;
      unfold distinctInvariant; cbn [dispatch world dispatched phase attempt excludedProxies];
      rewrite attemptedKeys_snoc.
    + pose proof (selectRandomProxy_source _ _ _ _ _ _ _ Hsel) as Hsrc. cbn zeta in Hsrc.
      rewrite Hpool in Hsrc.
      assert (Hcand : List.filter
                        (fun q => negb (existsb (String.eqb (proxy q)) (excludedProxies c)))
                        pool <> [])
        by (apply some_candidate_left; lia).
      destruct (List.filter _ pool) as [|q0 rest] eqn:Hf; [congruence|].
      cbn [length Nat.eqb] in Hsrc. rewrite <- Hf in Hsrc.
      apply filter_In in Hsrc as [_ Hk]. apply notExcluded_spec in Hk.
      repeat split; [exact Hpool| |by rewrite Hkeys|by rewrite Hlen].
      rewrite Hkeys. apply NoDup_app. repeat split.
      * by rewrite <- Hkeys.
      * intros k Hk1 Hk2. apply list_elem_of_singleton in Hk2. subst k.
        apply Hk. by apply list_elem_of_In.
      * apply NoDup_singleton.
    + rewrite app_nil_r. auto.
Qed.

Lemma deliver_distinct options c tk :
  pool <> [] -> distinctInvariant pool c -> distinctInvariant pool (deliver options c tk).
Proof.
  intros Hne (Hpool & Hnd & Hph).
  assert (Hretry : forall p w1,
             proxyList w1 = pool ->
             attemptedKeys (dispatched c) = (excludedProxies c ++ [proxy p])%list ->
             S (length (excludedProxies c)) = attempt c ->
             distinctInvariant pool
               (attemptRequest options (next tk)
                  {| phase := phase c; attempt := attempt c;
                     excludedProxies := (excludedProxies c ++ [proxy p])%list;
                     dispatched := dispatched c; world := w1 |})).
  { intros p w1 Hw1 Hk Ha. apply attemptRequest_distinct;
      cbn [world dispatched excludedProxies attempt]; auto.
    - rewrite ensureProxyDataLoaded_loaded; [exact Hw1|by rewrite Hw1].
    - rewrite length_app. cbn. lia. }
  assert (Hproxied : forall p start,
             attemptedKeys (dispatched c) = (excludedProxies c ++ [proxy p])%list ->
             S (length (excludedProxies c)) = attempt c ->
             (forall r, distinctInvariant pool (onload options p start r tk c)) /\
             (forall rt, distinctInvariant pool (failAndRetry options p rt tk c))).
  { intros p start Hk Ha. split.
    - intros r. unfold onload.
      destruct (status r =? 200); [unfold distinctInvariant; cbn; auto|].
      destruct (status r =? 405); [|unfold failAndRetry; by apply Hretry].
      cbn [http405Count updateProxyStats saveProxyStats setProxyStats setHttp405Count].
      destruct (_ <=? _)%nat.
      { unfold distinctInvariant. cbn [dispatch world dispatched phase].
        rewrite attemptedKeys_snoc, app_nil_r. cbn. auto. }
      destruct (isPost options); [|by apply Hretry].
      unfold distinctInvariant. cbn [dispatch world dispatched phase attempt excludedProxies].
      rewrite attemptedKeys_snoc, app_nil_r. cbn. auto.
    - intros rt. unfold failAndRetry. by apply Hretry. }
  unfold deliver.
  destruct (phase c) as [[p start|p start| | | |]|s] eqn:Hf;
    [destruct Hph as [Hk Ha]; destruct (Hproxied p start Hk Ha) as [Hon Hfail]..| | | | |];
    try destruct (outcome tk); try apply Hon; try apply Hfail;
    try destruct (attempt c =? 1)%nat;
    unfold distinctInvariant; cbn [settle world dispatched phase]; try rewrite Hf; auto.
Qed.

Lemma makeProxyRequest_distinct options rd w :
  proxyList (ensureProxyDataLoaded w) = pool ->
  distinctInvariant pool (makeProxyRequest options rd w) \/
  (isProxyEnabled w = false /\
   attemptedKeys (dispatched (makeProxyRequest options rd w)) = []).
Proof.
  intros Hpool. unfold makeProxyRequest.
  destruct (isProxyEnabled w); cbn [negb]; [left|right; auto].
  apply attemptRequest_distinct; cbn; auto. constructor.
Qed.

End Distinct.

(** X22.  When the loaded pool has at least [MAX_PROXY_RETRIES] endpoints with
    pairwise different keys, the attempts of one call go to pairwise
    different endpoints: no endpoint that failed in this call is selected
    again. *)
Theorem attempts_use_distinct_endpoints (options : Options) (rd : Readings)
    (ticks : list Tick) (w : World) :
  NoDup (map proxy (proxyList (ensureProxyDataLoaded w))) ->
  (MAX_PROXY_RETRIES <= length (proxyList (ensureProxyDataLoaded w)))%nat ->
  NoDup (attemptedKeys (dispatched (runCall options rd ticks w))).
Proof.
  intros Hnd Hlen. set (pool := proxyList (ensureProxyDataLoaded w)) in *.
  assert (Hne : pool <> []) by apply ensureProxyDataLoaded_nonempty.
  unfold runCall.
  destruct (makeProxyRequest_distinct pool Hnd Hlen options rd w eq_refl) as [Hinv|[Hoff Hk]].
  - enough (H : distinctInvariant pool
                  (fold_left (deliver options) ticks (makeProxyRequest options rd w)))
      by apply H.
    revert Hinv. generalize (makeProxyRequest options rd w).
    induction ticks as [|tk ticks IH]; intros c Hc; cbn [fold_left]; [exact Hc|].
    apply IH. by apply deliver_distinct.
  - assert (Hrun : forall c, (exists s, phase c = Settled s) \/ phase c = Awaiting DirectDisabled ->
                             dispatched (fold_left (deliver options) ticks c) = dispatched c).
    { induction ticks as [|tk ticks IH]; intros c Hc; cbn [fold_left]; [reflexivity|].
      destruct Hc as [[s Hs]|Hd].
      - rewrite (deliver_settled _ _ _ _ Hs). apply IH. eauto.
      - assert (Hstep : dispatched (deliver options c tk) = dispatched c /\
                        exists s, phase (deliver options c tk) = Settled s).
        { unfold deliver. rewrite Hd. destruct (outcome tk); cbn; eauto. }
        destruct Hstep as [Hdis Hs]. rewrite IH by (left; exact Hs). exact Hdis. }
    rewrite Hrun.
    + rewrite Hk. constructor.
    + right. unfold makeProxyRequest. rewrite Hoff. reflexivity.
Qed.

Lemma attempts_use_distinct_endpoints_witness :
  NoDup (attemptedKeys
           (dispatched
              (runCall getOptions (readingsAt 1000)
                 [tickAt (OnError "ECONNRESET") 1100; tickAt OnTimeout 2200]
                 (initialWorld true)))).
Proof.
  apply (attempts_use_distinct_endpoints getOptions (readingsAt 1000)
           [tickAt (OnError "ECONNRESET") 1100; tickAt OnTimeout 2200]
           (initialWorld true)).
  - apply (bool_decide_unpack _). vm_compute. exact I.
  - vm_compute. lia.
Defined.

(** ** Executor: what a proxied request can return *)

Lemma attemptRequest_resolved options rd c : resolvedInvariant (attemptRequest options rd c).
Proof.
  unfold attemptRequest, resolvedInvariant.
  destruct (_ <? _)%nat; [|destruct (selectRandomProxy _ _ _ _ _) as [w1 [q|]]];
    cbn [phase dispatch]; apply lastKind_dispatch.
Qed.

Lemma deliver_resolved options c tk :
  resolvedInvariant c -> resolvedInvariant (deliver options c tk).
Proof.
  intros Hinv. unfold deliver.
  destruct (phase c) as [f|s] eqn:Hf; [|exact Hinv].
  unfold resolvedInvariant in Hinv. rewrite Hf in Hinv.
  assert (Hfail : forall p rt, resolvedInvariant (failAndRetry options p rt tk c))
    by (intros; apply attemptRequest_resolved).
  assert (Hload : forall p start r, resolvedInvariant (onload options p start r tk c)).
  { intros p start r. unfold onload.
    destruct (status r =? 200) eqn:E200.
    { unfold resolvedInvariant, settle. cbn [phase]. intros _. apply Z.eqb_eq. exact E200. }
    destruct (status r =? 405); [|apply Hfail].
    destruct (_ <=? _)%nat;
      [unfold resolvedInvariant; cbn [phase dispatch]; apply lastKind_dispatch|].
    destruct (isPost options);
      [unfold resolvedInvariant; cbn [phase dispatch]; apply lastKind_dispatch|].
    apply attemptRequest_resolved. }
  destruct f; destruct (outcome tk); try apply Hload; try apply Hfail;
    try destruct (attempt c =? 1)%nat;
    unfold resolvedInvariant, lastWasProxied, settle, lastKind in *;
    cbn [phase dispatched] in *; try exact I;
    rewrite Hinv; intros (p & start & [[=]|[=]]).
Qed.

Lemma run_resolved options ticks c :
  resolvedInvariant c -> resolvedInvariant (fold_left (deliver options) ticks c).
Proof.
  revert c. induction ticks as [|tk ticks IH]; intros c Hc; cbn [fold_left]; [exact Hc|].
  apply IH, deliver_resolved, Hc.
Qed.

(** X23.  A response that reaches the caller as the answer of a proxied
    request has status 200: any other status can only be returned by a
    direct request. *)
Theorem proxied_response_is_200 (options : Options) (rd : Readings)
    (ticks : list Tick) (w : World) (r : Response) :
  phase (runCall options rd ticks w) = Settled (Resolved r) ->
  lastWasProxied (runCall options rd ticks w) ->
  status r = 200.
Proof.
  intros Hph Hlast.
  assert (Hinv : resolvedInvariant (runCall options rd ticks w)).
  { unfold runCall. apply run_resolved.
    unfold makeProxyRequest. destruct (negb _); [|apply attemptRequest_resolved].
    unfold resolvedInvariant. cbn [phase dispatch]. apply lastKind_dispatch. }
  unfold resolvedInvariant in Hinv. rewrite Hph in Hinv. auto.
Qed.

Lemma proxied_response_is_200_witness : status (responseWith 200) = 200.
Proof.
  apply (proxied_response_is_200 getOptions (readingsAt 1000)
           [tickAt (OnLoad (responseWith 200)) 1100] (initialWorld true)).
  - reflexivity.
  - eexists _, _. left. reflexivity.
Defined.

Lemma addProxy_same_key_refused_witness :
  addProxy "10.0.0.9:3128:bob:pw" (snd (addProxy "10.0.0.9:3128" worldWithBadEntry))
  = (false, snd (addProxy "10.0.0.9:3128" worldWithBadEntry)).
Proof.
  apply (addProxy_same_key_refused "10.0.0.9:3128:bob:pw"
           (mkProxy "10.0.0.9" (Num 3128) (Some "bob") (Some "pw") "10.0.0.9:3128")
           (snd (addProxy "10.0.0.9:3128" worldWithBadEntry))).
  - reflexivity.
  - cbn. apply list_elem_of_here.
Defined.
